(** * Bid ingestion pipeline of the auction server

    A shallow embedding of the bid pipeline of the Go auction house:
    - [bid_entity]: the bid entity, [CreateBid] and [Validate];
    - the bid repository: [CreateBidBatch], its per-bid goroutines and its
      two caches;
    - [bid_usecase]: the ingestion gateway [CreateBid] and the batching
      goroutine started by [triggerCreateRoutine];
    - [process]: the channel between the two, and [main];
    - [ingestion]: the same channel and loop one move at a time, as a
      sender meets them.

    Goroutines are modelled by explicit program counters and a scheduler;
    the external collaborators (MongoDB, the wall clock) by a [World] of
    oracles indexed by a global step counter.  Calls to the collaborators
    are taken to return. *)

From Stdlib Require Import ZArith List Lia Bool PrimFloat FloatAxioms SpecFloat FloatOps.
From stdpp Require Import base option list gmap strings.

Set Default Proof Using "Type".
Local Open Scope Z_scope.

(** ** Time

    [time.Time] is read as an instant in nanoseconds since the Unix epoch and
    [time.Duration] as a number of nanoseconds; neither saturates in the
    ranges the server works with. *)

Module time.

Abbreviation Time := Z (only parsing).
Abbreviation Duration := Z (only parsing).

Definition Nanosecond : Duration := 1.
Definition Second : Duration := 1000000000.
Definition Minute : Duration := 60 * Second.

(** [t.Add(d)] *)
Definition Add (t : Time) (d : Duration) : Time := t + d.

(** [t.After(u)]: strictly later. *)
Definition After (t u : Time) : bool := u <? t.

(** [time.Unix(sec, 0)] *)
Definition Unix (sec : Z) : Time := sec * Second.

(** [t.Unix()]: whole seconds since the epoch. *)
Definition to_Unix (t : Time) : Z := t / Second.

End time.

(** ** Errors *)

Module internal_error.

(** The [internal_error] package: an error is a message and a kind tag,
    ["bad_request"] for a failed validation, ["not_found"] for a failed
    lookup, ["internal_server_error"] for the rest. *)
Record InternalError : Type := mkInternalError {
  Message : string;
  Err : string
}.

Definition NewBadRequestError (message : string) : InternalError :=
  {| Message := message; Err := "bad_request" |}.

Definition NewNotFoundError (message : string) : InternalError :=
  {| Message := message; Err := "not_found" |}.

Definition NewInternalServerError (message : string) : InternalError :=
  {| Message := message; Err := "internal_server_error" |}.

End internal_error.
Import internal_error.

(** ** Entities *)

Module auction_entity.

(** [type AuctionStatus int], [type ProductCondition int]: any integer can
    be decoded from the database, the constants name two of them. *)
Abbreviation AuctionStatus := Z (only parsing).
Abbreviation ProductCondition := Z (only parsing).

Definition Active : AuctionStatus := 0.
Definition Completed : AuctionStatus := 1.

Record Auction : Type := mkAuction {
  Id : string;
  ProductName : string;
  Category : string;
  Description : string;
  Condition : ProductCondition;
  Status : AuctionStatus;
  Timestamp : time.Time
}.

End auction_entity.

Module bid_entity.

Record Bid : Type := mkBid {
  Id : string;
  UserId : string;
  AuctionId : string;
  Amount : float;
  Timestamp : time.Time
}.

Section Validation.

(** [uuid.Validate] of github.com/google/uuid, as "no error". *)
Variable uuid_Validate : string -> bool.

Definition Validate (b : Bid) : option InternalError :=
  if negb (uuid_Validate (UserId b)) then
    Some (NewBadRequestError "user id is not a valid id")
  else if negb (uuid_Validate (AuctionId b)) then
    Some (NewBadRequestError "auction id is not a valid id")
  else if (Amount b <=? 0)%float then
    Some (NewBadRequestError "amount must be greater than 0")
  else None.

(** [CreateBid]: [newId] is what [uuid.New().String()] returned and [now]
    what [time.Now()] returned. *)
Definition CreateBid (newId : string) (now : time.Time)
    (userId auctionId : string) (amount : float) : Bid + InternalError :=
  let bid := {| Id := newId; UserId := userId; AuctionId := auctionId;
                Amount := amount; Timestamp := now |} in
  match Validate bid with
  | Some err => inr err
  | None => inl bid
  end.

End Validation.

End bid_entity.

(** ** The outside world

    Every shared-memory access or external call of a goroutine happens at a
    tick of a global step counter; the oracles say what the wall clock, the
    [auctions] collection and the [bids] collection answered at that tick.
    Nothing is assumed about them. *)

Module auction.

(** The document stored in the [auctions] collection. *)
Record AuctionEntityMongo : Type := mkAuctionEntityMongo {
  Id : string;
  ProductName : string;
  Category : string;
  Description : string;
  Condition : auction_entity.ProductCondition;
  Status : auction_entity.AuctionStatus;
  Timestamp : Z
}.

End auction.

Module bid_doc.

(** [BidEntityMongo], the document stored in the [bids] collection. *)
Record BidEntityMongo : Type := mkBidEntityMongo {
  Id : string;
  UserId : string;
  AuctionId : string;
  Amount : float;
  Timestamp : Z
}.

End bid_doc.

Record World : Type := mkWorld {
  (** [time.Now()] *)
  Now : nat -> time.Time;
  (** [Collection.FindOne(ctx, {_id: id}).Decode(..)] on [auctions];
      [None] is a decode or lookup error. *)
  auctions_FindOne : nat -> string -> option auction.AuctionEntityMongo;
  (** [Collection.InsertOne(ctx, doc)] on [bids]; [false] is an error. *)
  bids_InsertOne : nat -> bid_doc.BidEntityMongo -> bool
}.

(** What a run leaves behind: calls to the collaborators and log lines. *)
Inductive Event : Type :=
| EvFindAuction (id : string)
    (** [FindAuctionById] was called: one Auction Lookup *)
| EvInsertBid (doc : bid_doc.BidEntityMongo) (ok : bool)
    (** [InsertOne] was called on the Bid Store, and whether it succeeded *)
| EvCreateBidBatch (batch : list bid_entity.Bid)
    (** the batching goroutine called [CreateBidBatch] with this batch *)
| EvLog (msg : string).

Definition is_lookup (e : Event) : bool :=
  match e with EvFindAuction _ => true | _ => false end.

Definition is_insert (e : Event) : bool :=
  match e with EvInsertBid _ _ => true | _ => false end.

Definition count_lookups (tr : list Event) : nat :=
  length (List.filter is_lookup tr).

Definition count_inserts (tr : list Event) : nat :=
  length (List.filter is_insert tr).

(** ** Auction Lookup *)

Section AuctionRepository.

Variable w : World.

(** [AuctionRepository.FindAuctionById] at tick [n]. *)
Definition FindAuctionById (n : nat) (id : string)
    : list Event * (auction_entity.Auction + InternalError) :=
  match auctions_FindOne w n id with
  | None =>
      let msg := ("error trying to find auction by id " ++ id)%string in
      ([EvFindAuction id; EvLog msg], inr (NewNotFoundError msg))
  | Some m =>
      ([EvFindAuction id],
       inl {| auction_entity.Id := auction.Id m;
              auction_entity.ProductName := auction.ProductName m;
              auction_entity.Category := auction.Category m;
              auction_entity.Description := auction.Description m;
              auction_entity.Condition := auction.Condition m;
              auction_entity.Status := auction.Status m;
              auction_entity.Timestamp := time.Unix (auction.Timestamp m) |})
  end.

End AuctionRepository.

(** ** The bid repository and its caches *)

Record BidRepository : Type := mkBidRepository {
  auctionStatusMap : gmap string auction_entity.AuctionStatus;
  auctionEndTimeMap : gmap string time.Time;
  auctionInterval : time.Duration
}.

(** [NewBidRepository]; [interval] is what [getAuctionInterval()] returned. *)
Definition NewBidRepository (interval : time.Duration) : BidRepository :=
  {| auctionStatusMap := ∅; auctionEndTimeMap := ∅; auctionInterval := interval |}.

(** [getAuctionInterval]: [parsed] is the result of [time.ParseDuration] on the
    AUCTION_INTERVAL variable. *)
Definition getAuctionInterval (parsed : option time.Duration) : time.Duration :=
  match parsed with
  | Some d => d
  | None => 5 * time.Minute
  end.

Definition toBidEntityMongo (b : bid_entity.Bid) : bid_doc.BidEntityMongo :=
  {| bid_doc.Id := bid_entity.Id b;
     bid_doc.UserId := bid_entity.UserId b;
     bid_doc.AuctionId := bid_entity.AuctionId b;
     bid_doc.Amount := bid_entity.Amount b;
     bid_doc.Timestamp := time.to_Unix (bid_entity.Timestamp b) |}.

(** The goroutine started for one bid of a batch, as a program counter.
    Between two constructors lies one access to shared state or one external
    call of the source. *)
Inductive Task : Type :=
| TStart (b : bid_entity.Bid)
    (** spawned, before the status cache is read *)
| TReadStatus (b : bid_entity.Bid) (st : option auction_entity.AuctionStatus)
    (** status cache read, end-time cache not yet *)
| TLoaded (b : bid_entity.Bid) (st : option auction_entity.AuctionStatus)
          (et : option time.Time)
    (** both caches read; decides between the hit and the miss path *)
| TFound (b : bid_entity.Bid) (a : auction_entity.Auction)
    (** miss path, the auction was found Active; status cache not yet written *)
| TStatusWritten (b : bid_entity.Bid) (a : auction_entity.Auction)
    (** status cache written, end-time cache not yet *)
| TInsert (b : bid_entity.Bid) (msg : string)
    (** about to call [InsertOne]; [msg] is what the path logs on failure *)
| TDone.
    (** returned; [wg.Done()] has run *)

Definition is_done (t : Task) : bool :=
  match t with TDone => true | _ => false end.

Section BidTask.

Variable w : World.

(** [Collection.InsertOne] followed by the error branch that only logs. *)
Definition insert_bid (n : nat) (b : bid_entity.Bid) (msg : string) : list Event :=
  let doc := toBidEntityMongo b in
  let ok := bids_InsertOne w n doc in
  if ok then [EvInsertBid doc true] else [EvInsertBid doc false; EvLog msg].

(** One step of a per-bid goroutine at tick [n]. *)
Definition task_step (n : nat) (bd : BidRepository) (t : Task)
    : BidRepository * Task * list Event :=
  match t with
  | TStart b =>
      (bd, TReadStatus b (auctionStatusMap bd !! bid_entity.AuctionId b), [])
  | TReadStatus b st =>
      (bd, TLoaded b st (auctionEndTimeMap bd !! bid_entity.AuctionId b), [])
  | TLoaded b (Some auctionStatus) (Some auctionEndTime) =>
      let now := Now w n in
      if (auctionStatus =? auction_entity.Completed) || time.After now auctionEndTime
      then (bd, TDone, [])
      else (bd, TInsert b "Error trying to insert bid", [])
  | TLoaded b _ _ =>
      let id := bid_entity.AuctionId b in
      match FindAuctionById w n id with
      | (evs, inr _) =>
          (bd, TDone,
           evs ++ [EvLog ("error trying to find auction by id " ++ id)%string])
      | (evs, inl auctionEntity) =>
          if negb (auction_entity.Status auctionEntity =? auction_entity.Active)
          then (bd, TDone,
                evs ++ [EvLog ("auction with id " ++ id ++ " is not open")%string])
          else (bd, TFound b auctionEntity, evs)
      end
  | TFound b a =>
      ({| auctionStatusMap :=
            <[bid_entity.AuctionId b := auction_entity.Status a]> (auctionStatusMap bd);
          auctionEndTimeMap := auctionEndTimeMap bd;
          auctionInterval := auctionInterval bd |},
       TStatusWritten b a, [])
  | TStatusWritten b a =>
      ({| auctionStatusMap := auctionStatusMap bd;
          auctionEndTimeMap :=
            <[bid_entity.AuctionId b :=
                time.Add (auction_entity.Timestamp a) (auctionInterval bd)]>
              (auctionEndTimeMap bd);
          auctionInterval := auctionInterval bd |},
       TInsert b "error trying to insert bid", [])
  | TInsert b msg =>
      (bd, TDone, insert_bid n b msg)
  | TDone => (bd, TDone, [])
  end.

End BidTask.

(** ** The batch processor

    [CreateBidBatch] starts one goroutine per bid and waits for all of them.
    A schedule names, step by step, the goroutine that moves next; an entry
    that names no goroutine, or one that has returned, does nothing.  Once the
    schedule is used up [wg.Wait()] lets every goroutine run to its end. *)

Record BatchState : Type := mkBatchState {
  bs_repo : BidRepository;
  bs_tasks : list Task;
  bs_trace : list Event;
  bs_tick : nat
}.

Section BatchProcessor.

Variable w : World.

Definition step_task_at (i : nat) (s : BatchState) : BatchState :=
  match bs_tasks s !! i with
  | Some t =>
      if is_done t then s
      else
        let '(bd, t', evs) := task_step w (bs_tick s) (bs_repo s) t in
        {| bs_repo := bd;
           bs_tasks := <[i := t']> (bs_tasks s);
           bs_trace := bs_trace s ++ evs;
           bs_tick := S (bs_tick s) |}
  | None => s
  end.

Definition run_schedule (sched : list nat) (s : BatchState) : BatchState :=
  fold_left (fun s i => step_task_at i s) sched s.

(** No goroutine needs more than six steps. *)
Definition max_task_steps : nat := 6.

Definition wait_schedule (n : nat) : list nat :=
  flat_map (fun i => repeat i max_task_steps) (seq 0 n).

(** [CreateBidBatch], entered at tick [n]; the second component is the
    returned [*InternalError]. *)
Definition CreateBidBatch (sched : list nat) (n : nat) (bd : BidRepository)
    (bidEntities : list bid_entity.Bid) : BatchState * option InternalError :=
  let spawned := {| bs_repo := bd;
                    bs_tasks := map TStart bidEntities;
                    bs_trace := [];
                    bs_tick := n |} in
  let interleaved := run_schedule sched spawned in
  let joined := run_schedule (wait_schedule (length bidEntities)) interleaved in
  (joined, None).


End BatchProcessor.

(** ** The use case: ingestion gateway and batching goroutine *)

Module bid_usecase.

Record BidInputDTO : Type := mkBidInputDTO {
  UserId : string;
  AuctionId : string;
  Amount : float
}.

(** [getMaxBatchSize] and [getMaxBatchSizeInterval]: the argument is the
    parsed environment variable, [None] when parsing failed. *)
Definition getMaxBatchSize (parsed : option Z) : Z :=
  match parsed with Some k => k | None => 5 end.

Definition getMaxBatchSizeInterval (parsed : option time.Duration) : time.Duration :=
  match parsed with Some d => d | None => 3 * time.Minute end.

(** What a call does to [bidChannel]. *)
Inductive ChanOp : Type :=
| Send (b : bid_entity.Bid).

Section Gateway.

Variable uuid_Validate : string -> bool.

(** [BidUseCase.CreateBid]: the channel operations it performs, in order,
    and the error it returns. *)
Definition CreateBid (newId : string) (now : time.Time) (bidInputDto : BidInputDTO)
    : list ChanOp * option InternalError :=
  match bid_entity.CreateBid uuid_Validate newId now
          (UserId bidInputDto) (AuctionId bidInputDto) (Amount bidInputDto) with
  | inr err => ([], Some err)
  | inl bidEntity => ([Send bidEntity], None)
  end.

End Gateway.

(** The state the batching goroutine works on: the fields of [BidUseCase]
    it reads, the timer, the package-level [bidBatch], and the repository
    behind [BidRepository]. *)
Record Routine : Type := mkRoutine {
  maxBatchSize : Z;
  batchInsertInterval : time.Duration;
  timer : time.Time;
    (** the instant [timer.C] is due *)
  bidBatch : list bid_entity.Bid;
  repository : BidRepository;
  trace : list Event;
  tick : nat;
  in_flight : list Task;
    (** the goroutines of the last [CreateBidBatch] call, as they stood when
        the call returned *)
  returned : bool
    (** the goroutine function has returned *)
}.

(** What [select] found ready. *)
Inductive Ready : Type :=
| RecvBid (bidEntity : bid_entity.Bid)   (** [bidEntity, ok := <-bidChannel], ok *)
| RecvClosed                             (** the same receive, [ok = false] *)
| TimerC.                                (** [<-timer.C] *)

Section Aggregator.

Variable w : World.

(** The call [bu.BidRepository.CreateBidBatch(ctx, bidBatch)] with its
    error branch, which only logs. *)
Definition flush (sched : list nat) (tag : string) (r : Routine) : Routine :=
  let '(joined, err) :=
    CreateBidBatch w sched (tick r) (repository r) (bidBatch r) in
  {| maxBatchSize := maxBatchSize r;
     batchInsertInterval := batchInsertInterval r;
     timer := timer r;
     bidBatch := bidBatch r;
     repository := bs_repo joined;
     trace := trace r ++ [EvCreateBidBatch (bidBatch r)] ++ bs_trace joined
                ++ match err with
                   | Some _ => [EvLog tag]
                   | None => []
                   end;
     tick := bs_tick joined;
     in_flight := bs_tasks joined;
     returned := returned r |}.

(** [bidBatch = nil] followed by [bu.timer.Reset(bu.batchInsertInterval)]. *)
Definition clear_and_reset (r : Routine) : Routine :=
  {| maxBatchSize := maxBatchSize r;
     batchInsertInterval := batchInsertInterval r;
     timer := time.Add (Now w (tick r)) (batchInsertInterval r);
     bidBatch := [];
     repository := repository r;
     trace := trace r;
     tick := S (tick r);
     in_flight := in_flight r;
     returned := returned r |}.

Definition append_bid (bidEntity : bid_entity.Bid) (r : Routine) : Routine :=
  {| maxBatchSize := maxBatchSize r;
     batchInsertInterval := batchInsertInterval r;
     timer := timer r;
     bidBatch := bidBatch r ++ [bidEntity];
     repository := repository r;
     trace := trace r;
     tick := tick r;
     in_flight := in_flight r;
     returned := returned r |}.

Definition do_return (r : Routine) : Routine :=
  {| maxBatchSize := maxBatchSize r;
     batchInsertInterval := batchInsertInterval r;
     timer := timer r;
     bidBatch := bidBatch r;
     repository := repository r;
     trace := trace r;
     tick := tick r;
     in_flight := in_flight r;
     returned := true |}.

(** One iteration of the [for { select { ... } }] loop of
    [triggerCreateRoutine]; [sched] schedules the goroutines of the
    [CreateBidBatch] call the iteration may make. *)
Definition loop_iter (sched : list nat) (ev : Ready) (r : Routine) : Routine :=
  match ev with
  | RecvClosed =>
      if (0 <? Z.of_nat (length (bidBatch r)))
      then do_return (flush sched "[A] error trying to create bid batch on goroutine" r)
      else do_return r
  | RecvBid bidEntity =>
      let r1 := append_bid bidEntity r in
      if (maxBatchSize r1 <=? Z.of_nat (length (bidBatch r1)))
      then clear_and_reset
             (flush sched "[B] error trying to create bid batch on goroutine" r1)
      else r1
  | TimerC =>
      clear_and_reset
        (flush sched "[C] error trying to create bid batch on goroutine" r)
  end.

(** The loop over a finite run of [select] outcomes, each with the
    schedule of its flush; it stops at the first [return]. *)
Fixpoint run_loop (evs : list (Ready * list nat)) (r : Routine) : Routine :=
  match evs with
  | [] => r
  | (ev, sched) :: rest =>
      if returned r then r else run_loop rest (loop_iter sched ev r)
  end.

(** [NewBidUseCase] at tick [n], up to the start of the goroutine. *)
Definition NewRoutine (n : nat) (maxBatchSize : Z) (maxSizeInterval : time.Duration)
    (bidRepository : BidRepository) : Routine :=
  {| maxBatchSize := maxBatchSize;
     batchInsertInterval := maxSizeInterval;
     timer := time.Add (Now w n) maxSizeInterval;
     bidBatch := [];
     repository := bidRepository;
     trace := [];
     tick := S n;
     in_flight := [];
     returned := false |}.

End Aggregator.

End bid_usecase.

(** ** The process: channel, goroutine and [main] *)

Module process.
Import bid_usecase.

(** [bidChannel]: a buffered channel of capacity [cap]. *)
Record Chan : Type := mkChan {
  buf : list bid_entity.Bid;
  cap : Z;
  closed : bool
}.

Record System : Type := mkSystem {
  bidChannel : Chan;
  routine : Routine;
  deferred_close_ran : bool;
    (** the [defer close(bu.bidChannel)] of the goroutine has run *)
  alive : bool
    (** [main] has not left yet *)
}.

Inductive Label : Type :=
| LSubmit (bidEntity : bid_entity.Bid)
| LRecv (bidEntity : bid_entity.Bid)
| LRecvClosed
| LTimer
| LDeferredClose
| LExit.

Definition with_buf (c : Chan) (l : list bid_entity.Bid) : Chan :=
  {| buf := l; cap := cap c; closed := closed c |}.

Definition close (c : Chan) : Chan :=
  {| buf := buf c; cap := cap c; closed := true |}.

Section Steps.

Variable w : World.
Variable uuid_Validate : string -> bool.

(** [initDependencies]: [NewBidRepository], then [NewBidUseCase], which
    makes the channel and starts the goroutine. *)
Definition initDependencies (n : nat) (auctionInterval : option time.Duration)
    (maxBatchSize : option Z) (maxSizeInterval : option time.Duration) : System :=
  let bidRepository := NewBidRepository (getAuctionInterval auctionInterval) in
  {| bidChannel := {| buf := []; cap := getMaxBatchSize maxBatchSize; closed := false |};
     routine := NewRoutine w n (getMaxBatchSize maxBatchSize)
                  (getMaxBatchSizeInterval maxSizeInterval) bidRepository;
     deferred_close_ran := false;
     alive := true |}.

(** The moves of the running process.  These are all of them: the sources
    hold one [close] (the deferred one of the goroutine), one sender
    ([CreateBid]) and one receiver (the goroutine); [main] serves requests
    until [router.Run] fails and then leaves through [log.Fatal]. *)
Inductive step : System -> Label -> System -> Prop :=
| step_submit s newId now dto bidEntity :
    alive s = true ->
    CreateBid uuid_Validate newId now dto = ([Send bidEntity], None) ->
    closed (bidChannel s) = false ->
    Z.of_nat (length (buf (bidChannel s))) < cap (bidChannel s) ->
    step s (LSubmit bidEntity)
      {| bidChannel := with_buf (bidChannel s) (buf (bidChannel s) ++ [bidEntity]);
         routine := routine s;
         deferred_close_ran := deferred_close_ran s;
         alive := true |}
| step_recv s bidEntity rest sched :
    alive s = true ->
    returned (routine s) = false ->
    buf (bidChannel s) = bidEntity :: rest ->
    step s (LRecv bidEntity)
      {| bidChannel := with_buf (bidChannel s) rest;
         routine := loop_iter w sched (RecvBid bidEntity) (routine s);
         deferred_close_ran := deferred_close_ran s;
         alive := true |}
| step_handoff s newId now dto bidEntity sched :
    (** an unbuffered channel: sender and receiver meet *)
    alive s = true ->
    returned (routine s) = false ->
    CreateBid uuid_Validate newId now dto = ([Send bidEntity], None) ->
    closed (bidChannel s) = false ->
    cap (bidChannel s) = 0 ->
    step s (LRecv bidEntity)
      {| bidChannel := bidChannel s;
         routine := loop_iter w sched (RecvBid bidEntity) (routine s);
         deferred_close_ran := deferred_close_ran s;
         alive := true |}
| step_recv_closed s sched :
    alive s = true ->
    returned (routine s) = false ->
    buf (bidChannel s) = [] ->
    closed (bidChannel s) = true ->
    step s LRecvClosed
      {| bidChannel := bidChannel s;
         routine := loop_iter w sched RecvClosed (routine s);
         deferred_close_ran := deferred_close_ran s;
         alive := true |}
| step_timer s sched :
    alive s = true ->
    returned (routine s) = false ->
    step s LTimer
      {| bidChannel := bidChannel s;
         routine := loop_iter w sched TimerC (routine s);
         deferred_close_ran := deferred_close_ran s;
         alive := true |}
| step_deferred_close s :
    alive s = true ->
    returned (routine s) = true ->
    deferred_close_ran s = false ->
    step s LDeferredClose
      {| bidChannel := close (bidChannel s);
         routine := routine s;
         deferred_close_ran := true;
         alive := true |}
| step_exit s :
    alive s = true ->
    step s LExit
      {| bidChannel := bidChannel s;
         routine := routine s;
         deferred_close_ran := deferred_close_ran s;
         alive := false |}.

(** States the process can be in, from a given start. *)
Inductive reachable (s0 : System) : System -> Prop :=
| reach_start : reachable s0 s0
| reach_step s l s' : reachable s0 s -> step s l s' -> reachable s0 s'.

End Steps.

End process.

(** ** The ingestion queue, seen from the sender

    [process.step] takes an iteration of the loop in one move.  What a sender
    meets while the batching goroutine is busy shows only when the same loop
    is taken one move at a time: the receive, then the goroutines of the
    [CreateBidBatch] call one step each, then the return from [wg.Wait()].
    The channel stays open while the loop runs (the only [close] is the
    deferred one of the goroutine, which runs after the loop returned), so
    the [!ok] branch has no part here. *)

Module ingestion.
Import bid_usecase.

(** Where the batching goroutine stands. *)
Inductive Consumer : Type :=
| AtSelect
    (** waiting in [select] *)
| InCreateBidBatch (st : BatchState).
    (** inside the [CreateBidBatch] call of a flush: the goroutines are
        spawned, [wg.Wait()] has not returned *)

Record Server : Type := mkServer {
  bidChannel : process.Chan;
  routine : Routine;
  consumer : Consumer
}.

Inductive Label : Type :=
| LSend (bidEntity : bid_entity.Bid)
    (** the send [bu.bidChannel <- *bidEntity] of a [CreateBid] call completed *)
| LRecv (bidEntity : bid_entity.Bid)
| LTimer
| LTask (i : nat)
    (** goroutine [i] of the running [CreateBidBatch] call took a step *)
| LJoin.
    (** [wg.Wait()] returned, and [CreateBidBatch] with it *)

Definition at_select (c : Consumer) : bool :=
  match c with AtSelect => true | InCreateBidBatch _ => false end.

(** Whether a send on [bidChannel] can complete: the buffer has room, or
    the channel is unbuffered and the receiver waits in [select]. *)
Definition can_send (s : Server) : bool :=
  (Z.of_nat (length (process.buf (bidChannel s))) <? process.cap (bidChannel s))
  || ((process.cap (bidChannel s) =? 0) && at_select (consumer s)).

(** The calls to the collaborators and the log lines so far, those of the
    running [CreateBidBatch] call included. *)
Definition events (s : Server) : list Event :=
  trace (routine s)
  ++ match consumer s with
     | InCreateBidBatch st => bs_trace st
     | AtSelect => []
     end.

(** [CreateBidBatch] entered with the current [bidBatch]: one goroutine per
    bid. *)
Definition spawn (r : Routine) : BatchState :=
  {| bs_repo := repository r;
     bs_tasks := map TStart (bidBatch r);
     bs_trace := [];
     bs_tick := tick r |}.

(** [CreateBidBatch] returned nil to the loop. *)
Definition joined (st : BatchState) (r : Routine) : Routine :=
  {| maxBatchSize := maxBatchSize r;
     batchInsertInterval := batchInsertInterval r;
     timer := timer r;
     bidBatch := bidBatch r;
     repository := bs_repo st;
     trace := trace r ++ [EvCreateBidBatch (bidBatch r)] ++ bs_trace st;
     tick := bs_tick st;
     in_flight := bs_tasks st;
     returned := returned r |}.

(** The receive branch up to the call of [CreateBidBatch]: append, then the
    size test. *)
Definition received (c : process.Chan) (bidEntity : bid_entity.Bid) (r : Routine)
    : Server :=
  let r1 := append_bid bidEntity r in
  {| bidChannel := c;
     routine := r1;
     consumer := if (maxBatchSize r1 <=? Z.of_nat (length (bidBatch r1)))
                 then InCreateBidBatch (spawn r1)
                 else AtSelect |}.

Section Moves.

Variable w : World.
Variable uuid_Validate : string -> bool.

Inductive step : Server -> Label -> Server -> Prop :=
| step_send s newId now dto bidEntity :
    CreateBid uuid_Validate newId now dto = ([Send bidEntity], None) ->
    process.closed (bidChannel s) = false ->
    Z.of_nat (length (process.buf (bidChannel s))) < process.cap (bidChannel s) ->
    step s (LSend bidEntity)
      {| bidChannel := process.with_buf (bidChannel s)
                         (process.buf (bidChannel s) ++ [bidEntity]);
         routine := routine s;
         consumer := consumer s |}
| step_handoff s newId now dto bidEntity :
    (** an unbuffered channel: the send completes when the receive takes it *)
    CreateBid uuid_Validate newId now dto = ([Send bidEntity], None) ->
    process.closed (bidChannel s) = false ->
    process.cap (bidChannel s) = 0 ->
    consumer s = AtSelect ->
    step s (LSend bidEntity) (received (bidChannel s) bidEntity (routine s))
| step_recv s bidEntity rest :
    consumer s = AtSelect ->
    process.buf (bidChannel s) = bidEntity :: rest ->
    step s (LRecv bidEntity)
      (received (process.with_buf (bidChannel s) rest) bidEntity (routine s))
| step_timer s :
    consumer s = AtSelect ->
    step s LTimer
      {| bidChannel := bidChannel s;
         routine := routine s;
         consumer := InCreateBidBatch (spawn (routine s)) |}
| step_task s st i :
    consumer s = InCreateBidBatch st ->
    step s (LTask i)
      {| bidChannel := bidChannel s;
         routine := routine s;
         consumer := InCreateBidBatch (step_task_at w i st) |}
| step_join s st :
    consumer s = InCreateBidBatch st ->
    forallb is_done (bs_tasks st) = true ->
    step s LJoin
      {| bidChannel := bidChannel s;
         routine := clear_and_reset w (joined st (routine s));
         consumer := AtSelect |}.

Inductive steps : Server -> list Label -> Server -> Prop :=
| steps_nil s : steps s [] s
| steps_cons s l s' ls s'' : step s l s' -> steps s' ls s'' -> steps s (l :: ls) s''.

End Moves.

End ingestion.

(** ** Measures and invariants used by the proofs *)

(** An upper bound on the steps a goroutine still takes. *)
Definition remaining (t : Task) : nat :=
  match t with
  | TStart _ => 6
  | TReadStatus _ _ => 5
  | TLoaded _ _ _ => 4
  | TFound _ _ => 3
  | TStatusWritten _ _ => 2
  | TInsert _ _ => 1
  | TDone => 0
  end.

(** The status a goroutine holds from its read of the status cache. *)
Definition cached_status_of (t : Task) : option auction_entity.AuctionStatus :=
  match t with
  | TReadStatus _ st => st
  | TLoaded _ st _ => st
  | _ => None
  end.

(** The status a goroutine is about to write into the status cache. *)
Definition pending_status_of (t : Task) : option auction_entity.AuctionStatus :=
  match t with
  | TFound _ a => Some (auction_entity.Status a)
  | _ => None
  end.

(** What holds of the channel and the goroutine as long as nobody closes the
    channel. *)
Definition never_closed (s : process.System) : Prop :=
  process.closed (process.bidChannel s) = false
  /\ bid_usecase.returned (process.routine s) = false
  /\ process.deferred_close_ran s = false.

Definition only_active (m : gmap string auction_entity.AuctionStatus) : Prop :=
  map_Forall (fun _ st => st = auction_entity.Active) m.

Definition task_holds_active (t : Task) : Prop :=
  (forall st, cached_status_of t = Some st -> st = auction_entity.Active) /\
  (forall st, pending_status_of t = Some st -> st = auction_entity.Active).

Definition batch_inv (s : BatchState) : Prop :=
  only_active (auctionStatusMap (bs_repo s)) /\ Forall task_holds_active (bs_tasks s).

(** The lookups and inserts a goroutine may still make. *)
Definition lookups_left (t : Task) : nat :=
  match t with
  | TStart _ | TReadStatus _ _ | TLoaded _ _ _ => 1
  | _ => 0
  end.

Definition inserts_left (t : Task) : nat :=
  match t with
  | TDone => 0
  | _ => 1
  end.

(** The bid a goroutine works on. *)
Definition task_bid (t : Task) : option bid_entity.Bid :=
  match t with
  | TStart b | TReadStatus b _ | TLoaded b _ _ | TFound b _
  | TStatusWritten b _ | TInsert b _ => Some b
  | TDone => None
  end.

(** An event a goroutine of a batch of [bids] may leave. *)
Definition event_of_batch (bids : list bid_entity.Bid) (e : Event) : Prop :=
  match e with
  | EvFindAuction id => exists b, b ∈ bids /\ id = bid_entity.AuctionId b
  | EvInsertBid doc _ => exists b, b ∈ bids /\ doc = toBidEntityMongo b
  | EvCreateBidBatch _ => False
  | EvLog _ => True
  end.

(** Every goroutine of [l] works on a bid of [bids]. *)
Definition tasks_of_batch (bids : list bid_entity.Bid) (l : list Task) : Prop :=
  Forall (fun t => forall b, task_bid t = Some b -> b ∈ bids) l.

(** The bids handed to [CreateBidBatch] so far, in order. *)
Definition handed_over (tr : list Event) : list bid_entity.Bid :=
  flat_map (fun e => match e with EvCreateBidBatch batch => batch | _ => [] end) tr.

(** The bids the loop receives over a run of [select] outcomes; nothing is
    received once the channel was seen closed. *)
Fixpoint received (evs : list (bid_usecase.Ready * list nat)) : list bid_entity.Bid :=
  match evs with
  | [] => []
  | (bid_usecase.RecvBid b, _) :: rest => b :: received rest
  | (bid_usecase.RecvClosed, _) :: _ => []
  | (bid_usecase.TimerC, _) :: rest => received rest
  end.

(** The bids still waiting in [bidBatch]; after the drain the variable is
    left as it was, but its bids have been handed over. *)
Definition pending (r : bid_usecase.Routine) : list bid_entity.Bid :=
  if bid_usecase.returned r then [] else bid_usecase.bidBatch r.

(** No batch handed over in [tr] holds more than [bound] bids. *)
Definition batches_within (bound : Z) (tr : list Event) : Prop :=
  Forall (fun e => match e with
                   | EvCreateBidBatch batch => Z.of_nat (length batch) <= bound
                   | _ => True
                   end) tr.

(** The auction of [b] has both its entries in the caches of [bd]. *)
Definition cached (bd : BidRepository) (b : bid_entity.Bid) : Prop :=
  is_Some (auctionStatusMap bd !! bid_entity.AuctionId b)
  /\ is_Some (auctionEndTimeMap bd !! bid_entity.AuctionId b).

(** A goroutine of a batch all of whose auctions are cached in [bd]: it is
    on the hit path. *)
Definition on_hit_path (bd : BidRepository) (t : Task) : Prop :=
  match t with
  | TStart b => cached bd b
  | TReadStatus b st => cached bd b /\ is_Some st
  | TLoaded _ st et => is_Some st /\ is_Some et
  | TInsert _ _ | TDone => True
  | TFound _ _ | TStatusWritten _ _ => False
  end.

(** A goroutine of a batch [bids] none of whose auctions has a status entry:
    it is on the miss path and has not found its auction Active. *)
Definition on_closed_path (bids : list bid_entity.Bid) (t : Task) : Prop :=
  match t with
  | TStart b => b ∈ bids
  | TReadStatus b st | TLoaded b st _ => b ∈ bids /\ st = None
  | TDone => True
  | TFound _ _ | TStatusWritten _ _ | TInsert _ _ => False
  end.

(** Every key of [m1] is a key of [m2]. *)
Definition keys_kept {V W : Type} (m1 : gmap string V) (m2 : gmap string W) : Prop :=
  forall id, is_Some (m1 !! id) -> is_Some (m2 !! id).

(** An end-time entry comes with a status entry, and a goroutine between its
    two cache writes has made the first. *)
Definition status_written (bd : BidRepository) (t : Task) : Prop :=
  forall b a, t = TStatusWritten b a ->
    is_Some (auctionStatusMap bd !! bid_entity.AuctionId b).

Definition cache_paired (s : BatchState) : Prop :=
  keys_kept (auctionEndTimeMap (bs_repo s)) (auctionStatusMap (bs_repo s))
  /\ Forall (status_written (bs_repo s)) (bs_tasks s).

(** The program counters after the goroutines named by [idxs] returned. *)
Definition mark_done (l : list Task) (idxs : list nat) : list Task :=
  fold_left (fun l i => <[i := TDone]> l) idxs l.

(** ** A concrete scenario *)

Module scenario.

(** Stand-in for [uuid.Validate] in the examples: the canonical form
    xxxxxxxx-xxxx-xxxx-xxxx-xxxxxxxxxxxx of hexadecimal digits, the form
    [uuid.New().String()] produces. *)
Definition is_hex (a : Ascii.ascii) : bool :=
  let k := Ascii.nat_of_ascii a in
  ((48 <=? k) && (k <=? 57) || (97 <=? k) && (k <=? 102)
   || (65 <=? k) && (k <=? 70))%nat.

Fixpoint canonical_from (i : nat) (s : string) : bool :=
  match s with
  | EmptyString => (i =? 36)%nat
  | String a rest =>
      (if ((i =? 8) || (i =? 13) || (i =? 18) || (i =? 23))%nat
       then Ascii.eqb a (Ascii.ascii_of_nat 45)
       else is_hex a)
      && canonical_from (S i) rest
  end.

Definition canonical_uuid (s : string) : bool := canonical_from 0 s.

Definition auctionX : string := "3f2504e0-4f89-11d3-9a0c-0305e82c3301".
Definition userU : string := "6ba7b810-9dad-11d1-80b4-00c04fd430c8".

(** Auction X was created at 1700000000 s and is still marked Active in the
    database. *)
Definition docX : auction.AuctionEntityMongo :=
  {| auction.Id := auctionX;
     auction.ProductName := "lamp";
     auction.Category := "home";
     auction.Description := "a reading lamp";
     auction.Condition := 1;
     auction.Status := auction_entity.Active;
     auction.Timestamp := 1700000000 |}.

(** The clock stands ten minutes after the creation of X; the database
    knows X only and accepts every insert. *)
Definition w0 : World :=
  {| Now := fun k => time.Unix 1700000600 + Z.of_nat k;
     auctions_FindOne := fun _ id => if String.eqb id auctionX then Some docX else None;
     bids_InsertOne := fun _ _ => true |}.

(** The repository as [initDependencies] makes it with no AUCTION_INTERVAL
    set: empty caches, five minutes. *)
Definition repo0 : BidRepository := NewBidRepository (getAuctionInterval None).

(** A bid on X submitted ten minutes after X was created. *)
Definition bidLate : bid_entity.Bid :=
  {| bid_entity.Id := "0b3c7d1e-8f2a-4c5b-9d6e-7f8091a2b3c4";
     bid_entity.UserId := userU;
     bid_entity.AuctionId := auctionX;
     bid_entity.Amount := 10%float;
     bid_entity.Timestamp := time.Unix 1700000600 |}.

(** A well-formed submission for X by user U, and the bid [CreateBid] makes of
    it when [uuid.New()] and [time.Now()] give the id and time of [bidLate]. *)
Definition dtoLate : bid_usecase.BidInputDTO :=
  {| bid_usecase.UserId := userU;
     bid_usecase.AuctionId := auctionX;
     bid_usecase.Amount := 10%float |}.

(** The process with no variable set in the environment (batches of five,
    three minutes between flushes): just started, after one submission, after
    the goroutine received it, and after [main] left. *)
Definition s0 : process.System := process.initDependencies w0 0 None None None.

Definition s1 : process.System :=
  {| process.bidChannel := process.with_buf (process.bidChannel s0) [bidLate];
     process.routine := process.routine s0;
     process.deferred_close_ran := false;
     process.alive := true |}.

Definition s2 : process.System :=
  {| process.bidChannel := process.with_buf (process.bidChannel s1) [];
     process.routine :=
       bid_usecase.loop_iter w0 [] (bid_usecase.RecvBid bidLate) (process.routine s1);
     process.deferred_close_ran := false;
     process.alive := true |}.

Definition s3 : process.System :=
  {| process.bidChannel := process.bidChannel s2;
     process.routine := process.routine s2;
     process.deferred_close_ran := false;
     process.alive := false |}.

End scenario.

(** ** A second scenario: X has been closed *)

Module closed_scenario.

Definition docXClosed : auction.AuctionEntityMongo :=
  {| auction.Id := scenario.auctionX;
     auction.ProductName := "lamp";
     auction.Category := "home";
     auction.Description := "a reading lamp";
     auction.Condition := 1;
     auction.Status := auction_entity.Completed;
     auction.Timestamp := 1700000000 |}.

(** As [scenario.w0], but the database holds X as Completed. *)
Definition wClosed : World :=
  {| Now := fun k => time.Unix 1700000600 + Z.of_nat k;
     auctions_FindOne :=
       fun _ id => if String.eqb id scenario.auctionX then Some docXClosed else None;
     bids_InsertOne := fun _ _ => true |}.

(** A bid on an auction the database does not know. *)
Definition bidUnknown : bid_entity.Bid :=
  {| bid_entity.Id := "9c5b94b1-35ad-49bb-b118-8e8fc24abf80";
     bid_entity.UserId := scenario.userU;
     bid_entity.AuctionId := "7d444840-9dc0-11d1-b245-5ffdce74fad2";
     bid_entity.Amount := 25%float;
     bid_entity.Timestamp := time.Unix 1700000100 |}.

End closed_scenario.

(** ** A third scenario: the queue is full while a flush runs *)

Module full_queue_scenario.
Import ingestion.

(** Two more bids on X by the same user, and the submissions they come
    from. *)
Definition bid2 : bid_entity.Bid :=
  {| bid_entity.Id := "1c4d8e2f-9a3b-4d6c-8e7f-8a9102b3c4d5";
     bid_entity.UserId := scenario.userU;
     bid_entity.AuctionId := scenario.auctionX;
     bid_entity.Amount := 11%float;
     bid_entity.Timestamp := time.Unix 1700000601 |}.

Definition bid3 : bid_entity.Bid :=
  {| bid_entity.Id := "2d5e9f30-ab4c-4e7d-9f80-9ba213c4d5e6";
     bid_entity.UserId := scenario.userU;
     bid_entity.AuctionId := scenario.auctionX;
     bid_entity.Amount := 12%float;
     bid_entity.Timestamp := time.Unix 1700000602 |}.

Definition dto2 : bid_usecase.BidInputDTO :=
  {| bid_usecase.UserId := scenario.userU;
     bid_usecase.AuctionId := scenario.auctionX;
     bid_usecase.Amount := 11%float |}.

Definition dto3 : bid_usecase.BidInputDTO :=
  {| bid_usecase.UserId := scenario.userU;
     bid_usecase.AuctionId := scenario.auctionX;
     bid_usecase.Amount := 12%float |}.

(** The server started with MAX_BATCH_SIZE=1: batches of one bid and a
    channel buffer of one. *)
Definition started : process.System :=
  process.initDependencies scenario.w0 0 None (Some 1) None.

Definition q0 : Server :=
  {| bidChannel := process.bidChannel started;
     routine := process.routine started;
     consumer := AtSelect |}.

(** [scenario.bidLate] was sent and is in the buffer. *)
Definition q1 : Server :=
  {| bidChannel := process.with_buf (bidChannel q0) [scenario.bidLate];
     routine := routine q0;
     consumer := AtSelect |}.

(** The goroutine received it; the batch is full, so it entered
    [CreateBidBatch]. *)
Definition q2 : Server :=
  received (process.with_buf (bidChannel q1) []) scenario.bidLate (routine q1).

(** The goroutine of the batch has taken [k] steps while [bid2] was sent
    and fills the buffer. *)
Definition flushing (k : nat) : Server :=
  {| bidChannel := process.with_buf (bidChannel q2) [bid2];
     routine := routine q2;
     consumer :=
       InCreateBidBatch
         (run_schedule scenario.w0 (repeat 0%nat k) (spawn (routine q2))) |}.

(** [CreateBidBatch] returned and the goroutine is back in [select]. *)
Definition q_joined : Server :=
  {| bidChannel := bidChannel (flushing 6);
     routine :=
       bid_usecase.clear_and_reset scenario.w0
         (joined (run_schedule scenario.w0 (repeat 0%nat 6) (spawn (routine q2)))
                 (routine q2));
     consumer := AtSelect |}.

(** It received [bid2]: the buffer has room again. *)
Definition q_room : Server :=
  received (process.with_buf (bidChannel q_joined) []) bid2 (routine q_joined).

(** The document of the first bid has been inserted. *)
Definition first_bid_inserted (s : Server) : Prop :=
  EvInsertBid (toBidEntityMongo scenario.bidLate) true ∈ events s.

End full_queue_scenario.

(** * The rest of the server

    The conversions between entities, stored documents and output records,
    the entity rules for auctions, the read side of the repositories and the
    HTTP handlers with their error mapping.  A database call enters as its
    result; a handler leaves a status code and a body. *)

(** ** HTTP errors *)

Module http.

Definition StatusOK : Z := 200.
Definition StatusCreated : Z := 201.
Definition StatusBadRequest : Z := 400.
Definition StatusNotFound : Z := 404.
Definition StatusInternalServerError : Z := 500.

End http.

Module rest_err.

Record Causes : Type := mkCauses {
  Field : string;
  CauseMessage : string
}.

Record RestErr : Type := mkRestErr {
  Message : string;
  Err : string;
  Code : Z;
  Causes_ : list Causes
}.

Definition NewBadRequestError (message : string) (causes : list Causes) : RestErr :=
  {| Message := message; Err := "bad_request"; Code := http.StatusBadRequest;
     Causes_ := causes |}.

Definition NewInternalServerError (message : string) : RestErr :=
  {| Message := message; Err := "internal_server";
     Code := http.StatusInternalServerError; Causes_ := [] |}.

Definition NewNotFoundError (message : string) : RestErr :=
  {| Message := message; Err := "not_found"; Code := http.StatusNotFound;
     Causes_ := [] |}.

(** [ConvertErrors]: the switch on the kind tag of the internal error. *)
Definition ConvertErrors (internalError : InternalError) : RestErr :=
  if String.eqb (internal_error.Err internalError) "bad_request" then
    NewBadRequestError (internal_error.Message internalError) []
  else if String.eqb (internal_error.Err internalError) "not_found" then
    NewNotFoundError (internal_error.Message internalError)
  else NewInternalServerError (internal_error.Message internalError).

End rest_err.

(** ** Binding errors *)

Module validation.

(** One entry of [validator.ValidationErrors], as [ValidateErr] reads it:
    [err.Field()] and [err.Translate(transl)]. *)
Record FieldError : Type := mkFieldError {
  Field : string;
  Translated : string
}.

(** What [ValidateErr] observes of the error it is given: whether
    [errors.As] finds a [*json.UnmarshalTypeError] in it, whether it finds
    [validator.ValidationErrors] in it, and the outcome of the direct type
    assertion [validation_err.(validator.ValidationErrors)], which succeeds
    only when the error itself, not one it wraps, is of that type. *)
Record ErrView : Type := mkErrView {
  as_UnmarshalTypeError : bool;
  as_ValidationErrors : bool;
  assert_ValidationErrors : option (list FieldError)
}.

(** [ValidateErr]; [None] is the panic of the unchecked type assertion. *)
Definition ValidateErr (validation_err : ErrView) : option rest_err.RestErr :=
  if as_UnmarshalTypeError validation_err then
    Some (rest_err.NewBadRequestError "Invalid field type" [])
  else if as_ValidationErrors validation_err then
    match assert_ValidationErrors validation_err with
    | Some errs =>
        Some (rest_err.NewBadRequestError "Validation error"
                (map (fun err => {| rest_err.Field := Field err;
                                    rest_err.CauseMessage := Translated err |}) errs))
    | None => None
    end
  else Some (rest_err.NewBadRequestError "error trying to convert fields" []).

End validation.

(** ** Stored documents and entities *)

(** The conversion [FindBidByAuctionId] and [FindWinningBidByAuctionId] apply
    to a stored bid. *)
Definition fromBidEntityMongo (bid : bid_doc.BidEntityMongo) : bid_entity.Bid :=
  {| bid_entity.Id := bid_doc.Id bid;
     bid_entity.UserId := bid_doc.UserId bid;
     bid_entity.AuctionId := bid_doc.AuctionId bid;
     bid_entity.Amount := bid_doc.Amount bid;
     bid_entity.Timestamp := time.Unix (bid_doc.Timestamp bid) |}.

(** The conversion [CreateAuction] applies to an auction before storing it. *)
Definition toAuctionEntityMongo (a : auction_entity.Auction) : auction.AuctionEntityMongo :=
  {| auction.Id := auction_entity.Id a;
     auction.ProductName := auction_entity.ProductName a;
     auction.Category := auction_entity.Category a;
     auction.Description := auction_entity.Description a;
     auction.Condition := auction_entity.Condition a;
     auction.Status := auction_entity.Status a;
     auction.Timestamp := time.to_Unix (auction_entity.Timestamp a) |}.

(** The conversion [FindAuctionById] and [FindAllAuctions] apply to a stored
    auction. *)
Definition fromAuctionEntityMongo (m : auction.AuctionEntityMongo) : auction_entity.Auction :=
  {| auction_entity.Id := auction.Id m;
     auction_entity.ProductName := auction.ProductName m;
     auction_entity.Category := auction.Category m;
     auction_entity.Description := auction.Description m;
     auction_entity.Condition := auction.Condition m;
     auction_entity.Status := auction.Status m;
     auction_entity.Timestamp := time.Unix (auction.Timestamp m) |}.

(** ** Auction rules *)

Module auction_rules.

Definition New : auction_entity.ProductCondition := 0.
Definition Used : auction_entity.ProductCondition := 1.
Definition Refurbished : auction_entity.ProductCondition := 2.

(** [len] of a Go string: its number of bytes. *)
Definition len (s : string) : Z := Z.of_nat (String.length s).

(** [Auction.Validate]; in Go [&&] binds tighter than [||]. *)
Definition Validate (au : auction_entity.Auction) : option InternalError :=
  if (len (auction_entity.ProductName au) <=? 1)
     || (len (auction_entity.Category au) <=? 2)
     || ((len (auction_entity.Description au) <=? 10)
         && (negb (auction_entity.Condition au =? New)
             && negb (auction_entity.Condition au =? Used)
             && negb (auction_entity.Condition au =? Refurbished)))
  then Some (NewBadRequestError "invalid data")
  else None.

(** [CreateAuctionBody]; [newId] and [now] are what [uuid.New().String()] and
    [time.Now()] returned. *)
Definition CreateAuctionBody (newId : string) (now : time.Time)
    (productName category description : string)
    (condition : auction_entity.ProductCondition)
    : auction_entity.Auction + InternalError :=
  let auction := {| auction_entity.Id := newId;
                    auction_entity.ProductName := productName;
                    auction_entity.Category := category;
                    auction_entity.Description := description;
                    auction_entity.Condition := condition;
                    auction_entity.Status := auction_entity.Active;
                    auction_entity.Timestamp := now |} in
  match Validate auction with
  | Some err => inr err
  | None => inl auction
  end.

End auction_rules.

(** ** The auction repository *)

Module auction_repo.

(** [getAuctionInterval] of package [auction], the twin of the one in
    package [bid]. *)
Definition getAuctionInterval (parsed : option time.Duration) : time.Duration :=
  match parsed with
  | Some d => d
  | None => 5 * time.Minute
  end.

(** The goroutine [CreateAuction] starts: at [due] it sets the status of the
    document [target] to [set_status]. *)
Record CloseJob : Type := mkCloseJob {
  due : time.Time;
  target : string;
  set_status : auction_entity.AuctionStatus
}.

(** [AuctionRepository.CreateAuction]: the document it hands to [InsertOne],
    the job it starts and the error it returns.  [insert_ok] is whether
    [InsertOne] succeeded, [armed_at] the instant the goroutine calls
    [time.After], [interval] the parsed AUCTION_INTERVAL. *)
Definition CreateAuction (insert_ok : bool) (armed_at : time.Time)
    (interval : option time.Duration) (a : auction_entity.Auction)
    : auction.AuctionEntityMongo * option CloseJob * option InternalError :=
  let auctionEntityMongo := toAuctionEntityMongo a in
  if insert_ok then
    (auctionEntityMongo,
     Some {| due := time.Add armed_at (getAuctionInterval interval);
             target := auction.Id auctionEntityMongo;
             set_status := auction_entity.Completed |},
     None)
  else
    (auctionEntityMongo, None,
     Some (NewInternalServerError "error trying to create auction")).

(** A value of the [bson.M] filter of [FindAllAuctions]. *)
Inductive FilterValue : Type :=
| FStatus (status : auction_entity.AuctionStatus)
| FString (s : string)
| FRegex (pattern options : string).

(** The filter [FindAllAuctions] builds. *)
Definition FindAllAuctions_filter (status : auction_entity.AuctionStatus)
    (category productName : string) : gmap string FilterValue :=
  let filter : gmap string FilterValue := ∅ in
  let filter := if status =? 0 then filter else <["status" := FStatus status]> filter in
  let filter := if String.eqb category EmptyString then filter
                else <["category" := FString category]> filter in
  let filter := if String.eqb productName EmptyString then filter
                else <["product_name" := FRegex productName "i"]> filter in
  filter.

(** The outcome of [Collection.Find] followed by [cursor.All]. *)
Inductive CursorResult (A : Type) : Type :=
| FindFailed
| AllFailed
| Docs (docs : list A).
Arguments FindFailed {A}.
Arguments AllFailed {A}.
Arguments Docs {A} docs.

(** [FindAllAuctions]; [find] is the [auctions] collection as [Find] and
    [cursor.All] see it: what they return for a filter. *)
Definition FindAllAuctions
    (find : gmap string FilterValue -> CursorResult auction.AuctionEntityMongo)
    (status : auction_entity.AuctionStatus) (category productName : string)
    : list Event * (list auction_entity.Auction + InternalError) :=
  match find (FindAllAuctions_filter status category productName) with
  | FindFailed =>
      ([EvLog "error trying to find auctions"],
       inr (NewInternalServerError "error trying to find auctions"))
  | AllFailed =>
      ([EvLog "error trying to decode auctions"],
       inr (NewInternalServerError "error trying to decode auctions"))
  | Docs auctions => ([], inl (map fromAuctionEntityMongo auctions))
  end.

End auction_repo.

(** ** The read side of the bid repository *)

Module bid_repo.
Import auction_repo.

(** [BidRepository.FindBidByAuctionId], given what the query returned. *)
Definition FindBidByAuctionId (res : CursorResult bid_doc.BidEntityMongo)
    (auctionId : string) : list Event * (list bid_entity.Bid + InternalError) :=
  let msg := ("error trying to find bids by auction id " ++ auctionId)%string in
  match res with
  | FindFailed | AllFailed => ([EvLog msg], inr (NewInternalServerError msg))
  | Docs bids => ([], inl (map fromBidEntityMongo bids))
  end.

(** [BidRepository.FindWinningBidByAuctionId]; [res] is the document
    [FindOne] decoded under the sort by descending amount, [None] when it
    failed. *)
Definition FindWinningBidByAuctionId (res : option bid_doc.BidEntityMongo)
    (auctionId : string) : list Event * (bid_entity.Bid + InternalError) :=
  let msg := ("error trying to find winning bid by auction id " ++ auctionId)%string in
  match res with
  | None => ([EvLog msg], inr (NewNotFoundError msg))
  | Some bid => ([], inl (fromBidEntityMongo bid))
  end.

End bid_repo.

(** ** The user repository and use case *)

Module user.

Record User : Type := mkUser { Id : string; Name : string }.
Record UserEntityMongo : Type := mkUserEntityMongo { doc_Id : string; doc_Name : string }.
Record UserOutputDTO : Type := mkUserOutputDTO { out_Id : string; out_Name : string }.

(** The outcome of [FindOne(..).Decode(..)] on [users]. *)
Inductive FindOneResult : Type :=
| Decoded (doc : UserEntityMongo)
| ErrNoDocuments
| OtherError.

(** [UserRepository.FindUserById] *)
Definition repo_FindUserById (res : FindOneResult) (id : string)
    : list Event * (User + InternalError) :=
  match res with
  | ErrNoDocuments =>
      let msg := ("user with id " ++ id ++ " not found")%string in
      ([EvLog msg], inr (NewNotFoundError msg))
  | OtherError =>
      let msg := ("error trying to find user with id " ++ id)%string in
      ([EvLog msg], inr (NewInternalServerError msg))
  | Decoded doc => ([], inl {| Id := doc_Id doc; Name := doc_Name doc |})
  end.

(** [UserUseCase.FindUserById], given what the repository returned. *)
Definition FindUserById (found : User + InternalError) : UserOutputDTO + InternalError :=
  match found with
  | inr err => inr err
  | inl user => inl {| out_Id := Id user; out_Name := Name user |}
  end.

(** [user_entity.CreateUser] *)
Definition entity_CreateUser (newId : string) (name : string) : User :=
  {| Id := newId; Name := name |}.

(** [UserRepository.CreateUser]: the document handed to [InsertOne], what is
    logged and the error returned. *)
Definition repo_CreateUser (insert_ok : bool) (user : User)
    : UserEntityMongo * list Event * option InternalError :=
  let userEntityMongo := {| doc_Id := Id user; doc_Name := Name user |} in
  if insert_ok then (userEntityMongo, [], None)
  else (userEntityMongo, [EvLog "Error trying to create user"],
        Some (NewInternalServerError "error trying to create user")).

(** [UserUseCase.CreateUser] *)
Definition CreateUser (insert_ok : bool) (newId : string) (name : string)
    : UserOutputDTO + InternalError :=
  let user := entity_CreateUser newId name in
  match repo_CreateUser insert_ok user with
  | (_, _, Some err) => inr err
  | (_, _, None) => inl {| out_Id := Id user; out_Name := Name user |}
  end.

End user.

(** ** The read side of the bid and auction use cases *)

Module bid_queries.

Record BidOutputDTO : Type := mkBidOutputDTO {
  Id : string;
  UserId : string;
  AuctionId : string;
  Amount : float;
  Timestamp : time.Time
}.

Definition ofBid (bid : bid_entity.Bid) : BidOutputDTO :=
  {| Id := bid_entity.Id bid;
     UserId := bid_entity.UserId bid;
     AuctionId := bid_entity.AuctionId bid;
     Amount := bid_entity.Amount bid;
     Timestamp := bid_entity.Timestamp bid |}.

(** [BidUseCase.FindBidByAuctionId], given what the repository returned. *)
Definition FindBidByAuctionId (found : list bid_entity.Bid + InternalError)
    : list BidOutputDTO + InternalError :=
  match found with
  | inr err => inr err
  | inl bidList => inl (map ofBid bidList)
  end.

(** [BidUseCase.FindWinningBidByAuctionId] *)
Definition FindWinningBidByAuctionId (found : bid_entity.Bid + InternalError)
    : BidOutputDTO + InternalError :=
  match found with
  | inr err => inr err
  | inl bid => inl (ofBid bid)
  end.

End bid_queries.

Module auction_usecase.

Section AuctionOutput.

(** The declarations of [AuctionOutputDTO], [WinningInfoOutputDTO] and of
    the types [auction_usecase.ProductCondition] and
    [auction_usecase.AuctionStatus] are not among the sources.  The records
    have the fields the literals of [find_auction_usecase.go] set; the two
    type conversions are taken as parameters. *)
Variable toProductCondition : auction_entity.ProductCondition -> Z.
Variable toAuctionStatus : auction_entity.AuctionStatus -> Z.

Record AuctionOutputDTO : Type := mkAuctionOutputDTO {
  a_Id : string;
  a_ProductName : string;
  a_Category : string;
  a_Description : string;
  a_Condition : Z;
  a_Status : Z;
  a_Timestamp : time.Time
}.

Record WinningInfoOutputDTO : Type := mkWinningInfoOutputDTO {
  Auction : AuctionOutputDTO;
  Bid : option bid_queries.BidOutputDTO
}.

Definition ofAuction (a : auction_entity.Auction) : AuctionOutputDTO :=
  {| a_Id := auction_entity.Id a;
     a_ProductName := auction_entity.ProductName a;
     a_Category := auction_entity.Category a;
     a_Description := auction_entity.Description a;
     a_Condition := toProductCondition (auction_entity.Condition a);
     a_Status := toAuctionStatus (auction_entity.Status a);
     a_Timestamp := auction_entity.Timestamp a |}.

(** [AuctionUseCase.FindAuctionById] *)
Definition FindAuctionById (found : auction_entity.Auction + InternalError)
    : AuctionOutputDTO + InternalError :=
  match found with
  | inr err => inr err
  | inl auctionEntity => inl (ofAuction auctionEntity)
  end.

(** [AuctionUseCase.FindAllAuctions] *)
Definition FindAllAuctions (found : list auction_entity.Auction + InternalError)
    : list AuctionOutputDTO + InternalError :=
  match found with
  | inr err => inr err
  | inl auctionEntities => inl (map ofAuction auctionEntities)
  end.

(** [AuctionUseCase.FindWinningBidByAuctionId]: both results of the Go
    function, the record and the error.  [bidFound] is consulted only when
    the auction was found. *)
Definition FindWinningBidByAuctionId (auctionFound : auction_entity.Auction + InternalError)
    (bidFound : bid_entity.Bid + InternalError)
    : option WinningInfoOutputDTO * option InternalError :=
  match auctionFound with
  | inr err => (None, Some err)
  | inl auction =>
      let auctionOutputDTO := ofAuction auction in
      match bidFound with
      | inr err => (Some {| Auction := auctionOutputDTO; Bid := None |}, Some err)
      | inl bidWinning =>
          (Some {| Auction := auctionOutputDTO;
                   Bid := Some (bid_queries.ofBid bidWinning) |}, None)
      end
  end.

End AuctionOutput.

End auction_usecase.

(** ** The HTTP handlers *)

(** The repository's [FindAuctionById], under a name the handlers of the
    same name do not hide. *)
Abbreviation AuctionRepository_FindAuctionById := FindAuctionById (only parsing).

Module controller.

(** What a handler writes: [c.JSON(code, body)] or [c.Status(code)]. *)
Inductive Body : Type :=
| NoBody
| JErr (e : rest_err.RestErr)
| JEmptyArray
| JBids (l : list bid_queries.BidOutputDTO)
| JUser (u : user.UserOutputDTO)
| JAuction (a : auction_usecase.AuctionOutputDTO)
| JAuctions (l : list auction_usecase.AuctionOutputDTO)
| JWinning (i : auction_usecase.WinningInfoOutputDTO).

Record Response : Type := mkResponse {
  StatusCode : Z;
  ResponseBody : Body
}.

Definition JSON (code : Z) (body : Body) : Response :=
  {| StatusCode := code; ResponseBody := body |}.

Definition error_response (e : rest_err.RestErr) : Response :=
  JSON (rest_err.Code e) (JErr e).

(** The answer to a path parameter that is no UUID. *)
Definition invalid_uuid (field : string) : Response :=
  error_response
    (rest_err.NewBadRequestError "invalid fields"
       [{| rest_err.Field := field; rest_err.CauseMessage := "Invalid UUID Value" |}]).

Section Handlers.

Variable uuid_Validate : string -> bool.
Variable toProductCondition : auction_entity.ProductCondition -> Z.
Variable toAuctionStatus : auction_entity.AuctionStatus -> Z.

(** The conversion of the parsed [status] parameter on its way to the
    repository, [auction_entity.AuctionStatus(auction_usecase.AuctionStatus(k))];
    the middle type is not declared in the sources. *)
Variable ofStatusNumber : Z -> auction_entity.AuctionStatus.

(** [BidController.CreateBid]: [bound] is the outcome of [ShouldBindJSON].
    The result is the response and what was done to the channel; [None] is
    the panic of [ValidateErr]. *)
Definition CreateBid (newId : string) (now : time.Time)
    (bound : bid_usecase.BidInputDTO + validation.ErrView)
    : option (Response * list bid_usecase.ChanOp) :=
  match bound with
  | inr err =>
      match validation.ValidateErr err with
      | Some restErr => Some (error_response restErr, [])
      | None => None
      end
  | inl bidInputDTO =>
      match bid_usecase.CreateBid uuid_Validate newId now bidInputDTO with
      | (ops, Some err) => Some (error_response (rest_err.ConvertErrors err), ops)
      | (ops, None) => Some (JSON http.StatusCreated NoBody, ops)
      end
  end.

(** [BidController.FindBidByAuctionId]; [res] is what the query returns if
    it is made. *)
Definition FindBidByAuctionId (auctionId : string)
    (res : auction_repo.CursorResult bid_doc.BidEntityMongo) : Response :=
  if negb (uuid_Validate auctionId) then invalid_uuid "auctionId"
  else
    match bid_queries.FindBidByAuctionId (bid_repo.FindBidByAuctionId res auctionId).2 with
    | inr err => error_response (rest_err.ConvertErrors err)
    | inl bidOutputList => JSON http.StatusOK (JBids bidOutputList)
    end.

(** [UserController.FindUserById] *)
Definition FindUserById (userId : string) (res : user.FindOneResult) : Response :=
  if negb (uuid_Validate userId) then invalid_uuid "userId"
  else
    match user.FindUserById (user.repo_FindUserById res userId).2 with
    | inr err => error_response (rest_err.ConvertErrors err)
    | inl u => JSON http.StatusOK (JUser u)
    end.

(** [UserController.CreateUser]; [bound] is the name [ShouldBindJSON] read,
    [None] when it failed. *)
Definition CreateUser (bound : option string) (newId : string) (insert_ok : bool)
    : Response :=
  match bound with
  | None => error_response (rest_err.NewBadRequestError "Invalid JSON body" [])
  | Some name =>
      match user.CreateUser insert_ok newId name with
      | inr err => error_response (rest_err.ConvertErrors err)
      | inl u => JSON http.StatusCreated (JUser u)
      end
  end.

(** [AuctionController.FindAuctionById]; the lookup is the one the bid
    repository uses, at tick [n] of the world. *)
Definition FindAuctionById (w : World) (n : nat) (auctionId : string) : Response :=
  if negb (uuid_Validate auctionId) then invalid_uuid "auctionId"
  else
    match auction_usecase.FindAuctionById toProductCondition toAuctionStatus
            (AuctionRepository_FindAuctionById w n auctionId).2 with
    | inr err => error_response (rest_err.ConvertErrors err)
    | inl a => JSON http.StatusOK (JAuction a)
    end.

(** [AuctionController.FindAllAuctions]; [statusNumber] is the outcome of
    [strconv.Atoi] on the [status] query parameter, [None] when it failed. *)
Definition FindAllAuctions
    (find : gmap string auction_repo.FilterValue
            -> auction_repo.CursorResult auction.AuctionEntityMongo)
    (statusNumber : option Z) (category productName : string) : Response :=
  match statusNumber with
  | None =>
      error_response
        (rest_err.NewBadRequestError "Erro trying to validate auction status param" [])
  | Some k =>
      match auction_usecase.FindAllAuctions toProductCondition toAuctionStatus
              (auction_repo.FindAllAuctions find (ofStatusNumber k) category
                 productName).2 with
      | inr err => error_response (rest_err.ConvertErrors err)
      | inl auctions =>
          if (length auctions =? 0)%nat then JSON http.StatusOK JEmptyArray
          else JSON http.StatusOK (JAuctions auctions)
      end
  end.

(** [AuctionController.FindWinningBidByAuctionId]; [bidRes] is what the
    winning-bid query returns if it is made. *)
Definition FindWinningBidByAuctionId (w : World) (n : nat) (auctionId : string)
    (bidRes : option bid_doc.BidEntityMongo) : Response :=
  if negb (uuid_Validate auctionId) then invalid_uuid "auctionId"
  else
    match auction_usecase.FindWinningBidByAuctionId toProductCondition toAuctionStatus
            (AuctionRepository_FindAuctionById w n auctionId).2
            (bid_repo.FindWinningBidByAuctionId bidRes auctionId).2 with
    | (_, Some err) => error_response (rest_err.ConvertErrors err)
    | (Some info, None) => JSON http.StatusOK (JWinning info)
    | (None, None) => JSON http.StatusOK NoBody
    end.

End Handlers.

End controller.

(** * Properties *)

Section BatchProcessorFacts.

Variable w : World.

Lemma remaining_le_max t : (remaining t <= max_task_steps)%nat.
Proof. destruct t; unfold max_task_steps; simpl; lia. Qed.

Lemma remaining_0_done t : remaining t = 0%nat -> t = TDone.
Proof. by destruct t. Qed.

Lemma task_step_remaining n bd t :
  is_done t = false ->
  (remaining (task_step w n bd t).1.2 < remaining t)%nat.
Proof.
  destruct t as [b|b st|b [st|] [et|]|b a|b a|b msg|]; simpl; intros Hd;
    try discriminate; try lia.
  - destruct (_ || _); simpl; lia.
  - destruct (FindAuctionById w n _) as [evs [a|e]]; simpl; [|lia].
    destruct (negb _); simpl; lia.
  - destruct (FindAuctionById w n _) as [evs [a|e]]; simpl; [|lia].
    destruct (negb _); simpl; lia.
  - destruct (FindAuctionById w n _) as [evs [a|e]]; simpl; [|lia].
    destruct (negb _); simpl; lia.
Qed.

Lemma step_task_at_outside i s :
  bs_tasks s !! i = None -> step_task_at w i s = s.
Proof. unfold step_task_at. by intros ->. Qed.


(** A step touches the program counter of the scheduled goroutine only. *)
Lemma step_task_at_tasks i s t :
  bs_tasks s !! i = Some t ->
  exists t', bs_tasks (step_task_at w i s) = <[i := t']> (bs_tasks s) /\
             (remaining t' <= pred (remaining t))%nat.
Proof.
  intros Hi. unfold step_task_at. rewrite Hi.
  destruct (is_done t) eqn:Hd.
  - exists t. split; [by rewrite list_insert_id|]. destruct t; simpl in *; try discriminate; lia.
  - pose proof (task_step_remaining (bs_tick s) (bs_repo s) t Hd) as Hlt.
    destruct (task_step w (bs_tick s) (bs_repo s) t) as [[bd t'] evs]; simpl in *.
    exists t'. split; [done|lia].
Qed.

Lemma step_task_at_length i s :
  length (bs_tasks (step_task_at w i s)) = length (bs_tasks s).
Proof.
  destruct (bs_tasks s !! i) as [t|] eqn:Hi.
  - destruct (step_task_at_tasks i s t Hi) as (t' & -> & _). by rewrite length_insert.
  - by rewrite step_task_at_outside.
Qed.

Lemma run_schedule_length sched s :
  length (bs_tasks (run_schedule w sched s)) = length (bs_tasks s).
Proof.
  revert s. induction sched as [|i sched IH]; intros s; simpl; [done|].
  unfold run_schedule in *. simpl. by rewrite IH, step_task_at_length.
Qed.

Lemma run_schedule_app l1 l2 s :
  run_schedule w (l1 ++ l2) s = run_schedule w l2 (run_schedule w l1 s).
Proof. unfold run_schedule. by rewrite fold_left_app. Qed.

(** Scheduled [k] times in a row, a goroutine with at most [k] steps left
    returns, and no other goroutine has moved. *)
Lemma run_repeat_tasks i k s t :
  bs_tasks s !! i = Some t ->
  (remaining t <= k)%nat ->
  bs_tasks (run_schedule w (repeat i k) s) = <[i := TDone]> (bs_tasks s).
Proof.
  revert s t. induction k as [|k IH]; intros s t Hi Hk; simpl.
  - assert (t = TDone) as -> by (apply remaining_0_done; lia).
    by rewrite list_insert_id.
  - destruct (step_task_at_tasks i s t Hi) as (t' & Ht' & Hr).
    unfold run_schedule in *. simpl.
    rewrite (IH (step_task_at w i s) t').
    + by rewrite Ht', list_insert_insert_eq.
    + rewrite Ht'. apply list_lookup_insert_eq. by eapply lookup_lt_Some.
    + lia.
Qed.

Lemma run_repeat_outside i k s :
  bs_tasks s !! i = None -> run_schedule w (repeat i k) s = s.
Proof.
  intros Hi. induction k as [|k IH]; simpl; [done|].
  unfold run_schedule in *. simpl. by rewrite step_task_at_outside.
Qed.

Lemma wait_tasks idxs s :
  bs_tasks (run_schedule w (flat_map (fun i => repeat i max_task_steps) idxs) s)
  = mark_done (bs_tasks s) idxs.
Proof.
  revert s. induction idxs as [|i idxs IH]; intros s; cbn [flat_map]; [done|].
  rewrite run_schedule_app, IH. unfold mark_done. cbn [fold_left]. f_equal.
  destruct (bs_tasks s !! i) as [t|] eqn:Hi.
  - apply (run_repeat_tasks i max_task_steps s t Hi), remaining_le_max.
  - rewrite run_repeat_outside by done.
    rewrite list_insert_ge; [done|]. by apply lookup_ge_None.
Qed.

Lemma mark_done_length l idxs : length (mark_done l idxs) = length l.
Proof.
  revert l. induction idxs as [|i idxs IH]; intros l; simpl; [done|].
  unfold mark_done in *. simpl. by rewrite IH, length_insert.
Qed.

Lemma mark_done_keeps l idxs j :
  l !! j = Some TDone -> mark_done l idxs !! j = Some TDone.
Proof.
  revert l. induction idxs as [|i idxs IH]; intros l Hj; simpl; [done|].
  unfold mark_done in *. simpl. apply IH.
  destruct (decide (i = j)) as [->|Hne].
  - apply list_lookup_insert_eq. by eapply lookup_lt_Some.
  - by rewrite list_lookup_insert_ne.
Qed.

Lemma mark_done_hits l idxs j :
  j ∈ idxs -> (j < length l)%nat -> mark_done l idxs !! j = Some TDone.
Proof.
  revert l. induction idxs as [|i idxs IH]; intros l Hin Hlt.
  - by apply elem_of_nil in Hin.
  - unfold mark_done in *. simpl. apply elem_of_cons in Hin as [->|Hin].
    + apply (mark_done_keeps _ idxs). by apply list_lookup_insert_eq.
    + apply IH; [done|]. by rewrite length_insert.
Qed.

Lemma mark_done_all l :
  Forall (fun t => t = TDone) (mark_done l (seq 0 (length l))).
Proof.
  apply Forall_lookup. intros j t Hj.
  assert (j < length l)%nat as Hlt.
  { apply lookup_lt_Some in Hj. by rewrite mark_done_length in Hj. }
  rewrite mark_done_hits in Hj; [congruence| |done].
  apply elem_of_seq. lia.
Qed.

(** Whatever the schedule and the collaborators' answers, every goroutine
    of the batch has returned when [CreateBidBatch] returns. *)
Lemma CreateBidBatch_all_done sched n bd bids :
  Forall (fun t => t = TDone) (bs_tasks (CreateBidBatch w sched n bd bids).1).
Proof.
  unfold CreateBidBatch, wait_schedule. simpl.
  rewrite wait_tasks.
  set (s := run_schedule w sched _).
  assert (length bids = length (bs_tasks s)) as ->.
  { subst s. by rewrite run_schedule_length; simpl; rewrite length_map. }
  apply mark_done_all.
Qed.

End BatchProcessorFacts.

(** ** A goroutine running alone *)

Section SingleBid.

Variable w : World.






End SingleBid.

Section SingleBidRun.

Variable w : World.




End SingleBidRun.

(** ** The decision of the per-bid goroutine *)

Section Decision.

Variable w : World.

Lemma count_inserts_app tr1 tr2 :
  count_inserts (tr1 ++ tr2) = (count_inserts tr1 + count_inserts tr2)%nat.
Proof. unfold count_inserts. by rewrite List.filter_app, length_app. Qed.

Lemma count_lookups_app tr1 tr2 :
  count_lookups (tr1 ++ tr2) = (count_lookups tr1 + count_lookups tr2)%nat.
Proof. unfold count_lookups. by rewrite List.filter_app, length_app. Qed.

Lemma count_inserts_insert_bid n b msg : count_inserts (insert_bid w n b msg) = 1%nat.
Proof. unfold insert_bid. by destruct (bids_InsertOne w n _). Qed.

Lemma count_lookups_insert_bid n b msg : count_lookups (insert_bid w n b msg) = 0%nat.
Proof. unfold insert_bid. by destruct (bids_InsertOne w n _). Qed.

Lemma count_inserts_FindAuctionById n id :
  count_inserts (FindAuctionById w n id).1 = 0%nat.
Proof. unfold FindAuctionById. by destruct (auctions_FindOne w n id). Qed.

Lemma count_lookups_FindAuctionById n id :
  count_lookups (FindAuctionById w n id).1 = 1%nat.
Proof. unfold FindAuctionById. by destruct (auctions_FindOne w n id). Qed.


(** A goroutine that found both entries in the caches makes no lookup and
    writes no cache, whatever the other goroutines of the batch do. *)
Lemma hit_step_no_lookup n bd b st et :
  let '(bd', t', evs) := task_step w n bd (TLoaded b (Some st) (Some et)) in
  bd' = bd /\ count_lookups evs = 0%nat
  /\ (t' = TDone \/ t' = TInsert b "Error trying to insert bid").
Proof. cbn [task_step]. destruct (_ || _); auto. Qed.

End Decision.



(** On a hit the clock comparison is strict: a goroutine that reads the clock
    exactly at the cached end time still inserts. *)
Example hit_at_end_time_inserts :
  let bd := {| auctionStatusMap := {[ scenario.auctionX := auction_entity.Active ]};
               auctionEndTimeMap := {[ scenario.auctionX := Now scenario.w0 2 ]};
               auctionInterval := 5 * time.Minute |} in
  count_inserts (bs_trace (CreateBidBatch scenario.w0 [] 0 bd [scenario.bidLate]).1)
  = 1%nat.
Proof. by vm_compute. Qed.

(** ** Cache population *)



(** ** The batch processor as a whole *)

Section WholeBatch.

Variable w : World.

Lemma run_schedule_no_tasks sched s :
  bs_tasks s = [] -> run_schedule w sched s = s.
Proof.
  intros Hs. induction sched as [|i sched IH]; [done|].
  unfold run_schedule in *. simpl. rewrite step_task_at_outside; [done|].
  by rewrite Hs.
Qed.

Lemma CreateBidBatch_nil sched n bd :
  CreateBidBatch w sched n bd []
  = ({| bs_repo := bd; bs_tasks := []; bs_trace := []; bs_tick := n |}, None).
Proof.
  unfold CreateBidBatch. f_equal. cbn [map length].
  rewrite (run_schedule_no_tasks sched) by done.
  by rewrite run_schedule_no_tasks.
Qed.


Lemma all_done_replicate (l : list Task) :
  Forall (fun t => t = TDone) l -> l = replicate (length l) TDone.
Proof. induction 1 as [|t l -> _ IH]; simpl; [done|]. by rewrite <- IH. Qed.

Lemma CreateBidBatch_tasks sched n bd bids :
  bs_tasks (CreateBidBatch w sched n bd bids).1 = replicate (length bids) TDone.
Proof.
  pose proof (CreateBidBatch_all_done w sched n bd bids) as Hd.
  apply all_done_replicate in Hd. rewrite Hd. f_equal.
  unfold CreateBidBatch. cbn [fst].
  by rewrite !run_schedule_length; cbn [bs_tasks]; rewrite length_map.
Qed.

End WholeBatch.


(** ** The batching goroutine *)

Section AggregatorFacts.
Import bid_usecase.

Variable w : World.

Lemma flush_fields sched tag r :
  let joined := (CreateBidBatch w sched (tick r) (repository r) (bidBatch r)).1 in
  let r' := flush w sched tag r in
  maxBatchSize r' = maxBatchSize r
  /\ batchInsertInterval r' = batchInsertInterval r
  /\ timer r' = timer r
  /\ bidBatch r' = bidBatch r
  /\ repository r' = bs_repo joined
  /\ trace r' = trace r ++ EvCreateBidBatch (bidBatch r) :: bs_trace joined
  /\ tick r' = bs_tick joined
  /\ in_flight r' = replicate (length (bidBatch r)) TDone
  /\ returned r' = returned r.
Proof.
  cbv zeta. unfold flush.
  pose proof (CreateBidBatch_tasks w sched (tick r) (repository r) (bidBatch r)) as Ht.
  unfold CreateBidBatch in *. cbn [fst] in Ht.
  cbn [maxBatchSize batchInsertInterval timer bidBatch repository trace tick
       in_flight returned fst app].
  rewrite app_nil_r. by rewrite Ht.
Qed.

Lemma loop_iter_returned_item sched b r :
  returned (loop_iter w sched (RecvBid b) r) = returned r.
Proof.
  unfold loop_iter. destruct (_ <=? _); [|done].
  unfold clear_and_reset. cbn [returned].
  by destruct (flush_fields sched "[B] error trying to create bid batch on goroutine"
                 (append_bid b r)) as (_&_&_&_&_&_&_&_&->).
Qed.

Lemma loop_iter_returned_timer sched r :
  returned (loop_iter w sched TimerC r) = returned r.
Proof.
  unfold loop_iter, clear_and_reset. cbn [returned].
  by destruct (flush_fields sched "[C] error trying to create bid batch on goroutine" r)
    as (_&_&_&_&_&_&_&_&->).
Qed.

Lemma loop_iter_in_flight sched ev r :
  Forall (fun t => t = TDone) (in_flight r) ->
  Forall (fun t => t = TDone) (in_flight (loop_iter w sched ev r)).
Proof.
  intros Hr. unfold loop_iter. destruct ev as [b| |].
  - destruct (_ <=? _); [|done]. unfold clear_and_reset. cbn [in_flight].
    destruct (flush_fields sched "[B] error trying to create bid batch on goroutine"
                (append_bid b r)) as (_&_&_&_&_&_&_&->&_).
    by apply Forall_replicate.
  - destruct (_ <? _); [|done]. unfold do_return. cbn [in_flight].
    destruct (flush_fields sched "[A] error trying to create bid batch on goroutine" r)
      as (_&_&_&_&_&_&_&->&_).
    by apply Forall_replicate.
  - unfold clear_and_reset. cbn [in_flight].
    destruct (flush_fields sched "[C] error trying to create bid batch on goroutine" r)
      as (_&_&_&_&_&_&_&->&_).
    by apply Forall_replicate.
Qed.

Lemma run_loop_in_flight evs r :
  Forall (fun t => t = TDone) (in_flight r) ->
  Forall (fun t => t = TDone) (in_flight (run_loop w evs r)).
Proof.
  revert r. induction evs as [|[ev sched] evs IH]; intros r Hr; simpl; [done|].
  destruct (returned r); [done|]. by apply IH, loop_iter_in_flight.
Qed.

Lemma loop_iter_timer_fields sched r :
  let joined := (CreateBidBatch w sched (tick r) (repository r) (bidBatch r)).1 in
  let on_timer := loop_iter w sched TimerC r in
  bidBatch on_timer = []
  /\ trace on_timer = trace r ++ EvCreateBidBatch (bidBatch r) :: bs_trace joined
  /\ repository on_timer = bs_repo joined
  /\ timer on_timer = time.Add (Now w (bs_tick joined)) (batchInsertInterval r).
Proof.
  cbv zeta. unfold loop_iter.
  destruct (flush_fields sched "[C] error trying to create bid batch on goroutine" r)
    as (_ & Hi & _ & _ & Hr & Ht & Hk & _).
  unfold clear_and_reset. cbn [bidBatch trace repository timer].
  by rewrite Hr, Ht, Hk, Hi.
Qed.

Lemma loop_iter_item_fields sched b r :
  let batch := bidBatch r ++ [b] in
  let on_item := loop_iter w sched (RecvBid b) r in
  if maxBatchSize r <=? Z.of_nat (length batch)
  then
    let joined := (CreateBidBatch w sched (tick r) (repository r) batch).1 in
    bidBatch on_item = []
    /\ trace on_item = trace r ++ EvCreateBidBatch batch :: bs_trace joined
    /\ repository on_item = bs_repo joined
    /\ timer on_item = time.Add (Now w (bs_tick joined)) (batchInsertInterval r)
  else
    bidBatch on_item = batch
    /\ trace on_item = trace r
    /\ repository on_item = repository r
    /\ timer on_item = timer r.
Proof.
  cbv zeta. unfold loop_iter. cbn [append_bid maxBatchSize bidBatch].
  destruct (_ <=? _); [|done].
  destruct (flush_fields sched "[B] error trying to create bid batch on goroutine"
              (append_bid b r)) as (_ & Hi & _ & _ & Hr & Ht & Hk & _).
  unfold clear_and_reset. cbn [bidBatch trace repository timer].
  by rewrite Hr, Ht, Hk, Hi.
Qed.

End AggregatorFacts.

(** C3.  One iteration of the loop, from any state.  On an item the bid is
    appended; if the batch then counts at least [maxBatchSize] bids it is
    handed to [CreateBidBatch], the current batch becomes empty and the timer
    is set a full [batchInsertInterval] ahead, otherwise nothing else
    changes.  On the timer the current batch, whatever its size, is handed
    over, the current batch becomes empty and the timer is set a full
    interval ahead. *)
Theorem C3_loop_iteration (w : World) (sched : list nat) (r : bid_usecase.Routine)
    (b : bid_entity.Bid) :
  let batch := bid_usecase.bidBatch r ++ [b] in
  let on_item := bid_usecase.loop_iter w sched (bid_usecase.RecvBid b) r in
  let on_timer := bid_usecase.loop_iter w sched bid_usecase.TimerC r in
  (if bid_usecase.maxBatchSize r <=? Z.of_nat (length batch)
   then
     let joined := (CreateBidBatch w sched (bid_usecase.tick r)
                      (bid_usecase.repository r) batch).1 in
     bid_usecase.bidBatch on_item = []
     /\ bid_usecase.trace on_item
        = bid_usecase.trace r ++ EvCreateBidBatch batch :: bs_trace joined
     /\ bid_usecase.repository on_item = bs_repo joined
     /\ bid_usecase.timer on_item
        = time.Add (Now w (bs_tick joined)) (bid_usecase.batchInsertInterval r)
   else
     bid_usecase.bidBatch on_item = batch
     /\ bid_usecase.trace on_item = bid_usecase.trace r
     /\ bid_usecase.repository on_item = bid_usecase.repository r
     /\ bid_usecase.timer on_item = bid_usecase.timer r)
  /\ (let joined := (CreateBidBatch w sched (bid_usecase.tick r)
                       (bid_usecase.repository r) (bid_usecase.bidBatch r)).1 in
      bid_usecase.bidBatch on_timer = []
      /\ bid_usecase.trace on_timer
         = bid_usecase.trace r
           ++ EvCreateBidBatch (bid_usecase.bidBatch r) :: bs_trace joined
      /\ bid_usecase.repository on_timer = bs_repo joined
      /\ bid_usecase.timer on_timer
         = time.Add (Now w (bs_tick joined)) (bid_usecase.batchInsertInterval r))
  /\ bid_usecase.returned on_item = bid_usecase.returned r
  /\ bid_usecase.returned on_timer = bid_usecase.returned r.
Proof.
  cbv zeta. split; [|split; [|split]].
  - apply (loop_iter_item_fields w sched b r).
  - apply (loop_iter_timer_fields w sched r).
  - apply loop_iter_returned_item.
  - apply loop_iter_returned_timer.
Qed.

(** Between two flushes the loop only accumulates: items that keep the batch
    under [maxBatchSize] change nothing but [bidBatch].  With C3 this is
    "whichever trigger comes first": the batch is handed over at the first
    item that fills it or at the first timer event, and not before. *)
Lemma run_loop_accumulates (w : World) (items : list (bid_entity.Bid * list nat))
    (r : bid_usecase.Routine) :
  bid_usecase.returned r = false ->
  Z.of_nat (length (bid_usecase.bidBatch r) + length items) < bid_usecase.maxBatchSize r ->
  let r' := bid_usecase.run_loop w
              (map (fun p => (bid_usecase.RecvBid p.1, p.2)) items) r in
  bid_usecase.bidBatch r' = bid_usecase.bidBatch r ++ map fst items
  /\ bid_usecase.trace r' = bid_usecase.trace r
  /\ bid_usecase.repository r' = bid_usecase.repository r
  /\ bid_usecase.timer r' = bid_usecase.timer r
  /\ bid_usecase.maxBatchSize r' = bid_usecase.maxBatchSize r
  /\ bid_usecase.returned r' = false.
Proof.
  revert r. induction items as [|[b sched] items IH]; intros r Hret Hlt; cbv zeta.
  - cbn [map bid_usecase.run_loop]. by rewrite app_nil_r.
  - cbn [map bid_usecase.run_loop fst snd]. rewrite Hret.
    assert (bid_usecase.loop_iter w sched (bid_usecase.RecvBid b) r
            = bid_usecase.append_bid b r) as ->.
    { unfold bid_usecase.loop_iter.
      cbn [bid_usecase.append_bid bid_usecase.maxBatchSize bid_usecase.bidBatch].
      destruct (Z.leb_spec (bid_usecase.maxBatchSize r)
                  (Z.of_nat (length (bid_usecase.bidBatch r ++ [b])))) as [Hle|]; [|done].
      rewrite length_app in Hle. cbn [length] in *. lia. }
    destruct (IH (bid_usecase.append_bid b r)) as (H1 & H2 & H3 & H4 & H5 & H6).
    + done.
    + cbn [bid_usecase.append_bid bid_usecase.bidBatch bid_usecase.maxBatchSize].
      rewrite length_app. cbn [length] in *. lia.
    + rewrite H1, H2, H3, H4, H5, H6.
      cbn [bid_usecase.append_bid bid_usecase.bidBatch bid_usecase.trace
           bid_usecase.repository bid_usecase.timer bid_usecase.maxBatchSize].
      by rewrite <- app_assoc.
Qed.

(** C4 (as amended).  Every call of [CreateBidBatch] made by the loop, on a
    full batch, on the timer or on the drain, is an ordinary call: the state
    in which the loop goes on already holds the whole effect of the batch, and
    every goroutine of the batch has returned.  From a fresh routine, after any
    run of the loop, no per-bid goroutine is still running. *)
Theorem C4_flush_is_synchronous (w : World) (sched : list nat) (tag : string)
    (r : bid_usecase.Routine) (evs : list (bid_usecase.Ready * list nat)) (n : nat)
    (maxBatchSize : Z) (maxSizeInterval : time.Duration) (bd : BidRepository) :
  bid_usecase.in_flight (bid_usecase.flush w sched tag r)
  = replicate (length (bid_usecase.bidBatch r)) TDone
  /\ bid_usecase.trace (bid_usecase.flush w sched tag r)
     = bid_usecase.trace r
       ++ EvCreateBidBatch (bid_usecase.bidBatch r)
          :: bs_trace (CreateBidBatch w sched (bid_usecase.tick r)
                         (bid_usecase.repository r) (bid_usecase.bidBatch r)).1
  /\ Forall (fun t => t = TDone)
       (bid_usecase.in_flight
          (bid_usecase.run_loop w evs
             (bid_usecase.NewRoutine w n maxBatchSize maxSizeInterval bd))).
Proof.
  destruct (flush_fields w sched tag r) as (_ & _ & _ & _ & _ & Ht & _ & Hf & _).
  split; [done|]. split; [done|].
  by apply run_loop_in_flight.
Qed.

(** C4 as stated fails: with [maxBatchSize] 1 the first bid fills the batch;
    when the loop is back at its [select] the goroutine of that bid has
    returned and its lookup and insert are already in the trace, although the
    schedule gave it no step before [wg.Wait()]. *)
Lemma C4_loop_resumes_after_batch_completed :
  let r0 := bid_usecase.NewRoutine scenario.w0 0 1 (3 * time.Minute) scenario.repo0 in
  let r1 := bid_usecase.loop_iter scenario.w0 [] (bid_usecase.RecvBid scenario.bidLate) r0 in
  bid_usecase.returned r1 = false
  /\ bid_usecase.bidBatch r1 = []
  /\ bid_usecase.in_flight r1 = [TDone]
  /\ bid_usecase.trace r1
     = [EvCreateBidBatch [scenario.bidLate];
        EvFindAuction scenario.auctionX;
        EvInsertBid (toBidEntityMongo scenario.bidLate) true].
Proof. cbv zeta. repeat split; by vm_compute. Qed.

(** C8.  When the timer fires on an empty batch, [CreateBidBatch] is called
    with the empty batch, starts no goroutine, calls neither collaborator and
    returns nil; the repository is as it was. *)
Theorem C8_empty_flush_is_noop (w : World) (sched : list nat) (r : bid_usecase.Routine) :
  bid_usecase.bidBatch r = [] ->
  let r' := bid_usecase.loop_iter w sched bid_usecase.TimerC r in
  CreateBidBatch w sched (bid_usecase.tick r) (bid_usecase.repository r)
    (bid_usecase.bidBatch r)
  = ({| bs_repo := bid_usecase.repository r; bs_tasks := []; bs_trace := [];
        bs_tick := bid_usecase.tick r |}, None)
  /\ bid_usecase.trace r' = bid_usecase.trace r ++ [EvCreateBidBatch []]
  /\ count_inserts (bid_usecase.trace r') = count_inserts (bid_usecase.trace r)
  /\ count_lookups (bid_usecase.trace r') = count_lookups (bid_usecase.trace r)
  /\ bid_usecase.repository r' = bid_usecase.repository r
  /\ bid_usecase.bidBatch r' = [].
Proof.
  intros Hb r'. subst r'.
  destruct (loop_iter_timer_fields w sched r) as (H1 & H2 & H3 & _).
  rewrite H1, H2, H3, Hb, CreateBidBatch_nil. cbn [fst bs_trace bs_repo].
  rewrite count_inserts_app, count_lookups_app. cbn. rewrite !Nat.add_0_r. done.
Qed.

(** C8 in the scenario: the timer fires on the routine just made. *)
Lemma C8_empty_flush_is_noop_witness :
  let r := bid_usecase.NewRoutine scenario.w0 0 5 (3 * time.Minute) scenario.repo0 in
  let r' := bid_usecase.loop_iter scenario.w0 [] bid_usecase.TimerC r in
  bid_usecase.bidBatch r = []
  /\ count_inserts (bid_usecase.trace r') = 0%nat
  /\ count_lookups (bid_usecase.trace r') = 0%nat.
Proof.
  cbv zeta. split; [reflexivity|].
  pose proof (C8_empty_flush_is_noop scenario.w0 []
                (bid_usecase.NewRoutine scenario.w0 0 5 (3 * time.Minute) scenario.repo0)
                eq_refl) as H.
  cbv zeta in H. destruct H as (_ & _ & H3 & H4 & _).
  exact (conj H3 H4).
Defined.

(** ** The status cache holds Active only *)

Section StatusCache.

Variable w : World.

Lemma task_step_inv n bd t :
  only_active (auctionStatusMap bd) ->
  task_holds_active t ->
  only_active (auctionStatusMap (task_step w n bd t).1.1)
  /\ task_holds_active (task_step w n bd t).1.2.
Proof.
  intros Hm [Hc Hp].
  destruct t as [b|b st|b [st|] [et|]|b a|b a|b msg|]; cbn [task_step].
  - split; [done|]. split; cbn; [|done].
    intros st Hst. by apply (map_Forall_lookup_1 _ _ _ _ Hm Hst).
  - split; [done|]. split; cbn; [|done]. exact Hc.
  - destruct (_ || _); split; try done; by split.
  - destruct (FindAuctionById w n _) as [evs [a|e]]; cbn [fst snd].
    2: { split; [done|by split]. }
    destruct (auction_entity.Status a =? auction_entity.Active) eqn:Ha; cbn [negb fst snd].
    + split; [done|]. split; cbn; [done|].
      intros st' [= <-]. by apply Z.eqb_eq.
    + split; [done|by split].
  - destruct (FindAuctionById w n _) as [evs [a|e]]; cbn [fst snd].
    2: { split; [done|by split]. }
    destruct (auction_entity.Status a =? auction_entity.Active) eqn:Ha; cbn [negb fst snd].
    + split; [done|]. split; cbn; [done|].
      intros st' [= <-]. by apply Z.eqb_eq.
    + split; [done|by split].
  - destruct (FindAuctionById w n _) as [evs [a|e]]; cbn [fst snd].
    2: { split; [done|by split]. }
    destruct (auction_entity.Status a =? auction_entity.Active) eqn:Ha; cbn [negb fst snd].
    + split; [done|]. split; cbn; [done|].
      intros st' [= <-]. by apply Z.eqb_eq.
    + split; [done|by split].
  - cbn [fst snd auctionStatusMap]. split; [|by split].
    apply map_Forall_insert_2; [|done]. by apply Hp.
  - cbn [fst snd auctionStatusMap]. split; [done|by split].
  - split; [done|by split].
  - split; [done|by split].
Qed.

Lemma step_task_at_inv i s : batch_inv s -> batch_inv (step_task_at w i s).
Proof.
  intros [Hm Ht]. unfold step_task_at.
  destruct (bs_tasks s !! i) as [t|] eqn:Hi; [|done].
  destruct (is_done t); [done|].
  assert (task_holds_active t) as Hti by (by eapply Forall_lookup_1).
  pose proof (task_step_inv (bs_tick s) (bs_repo s) t Hm Hti) as [Hm' Ht'].
  destruct (task_step w (bs_tick s) (bs_repo s) t) as [[bd' t'] evs].
  split; cbn [bs_repo bs_tasks fst snd] in *; [done|].
  by apply Forall_insert.
Qed.

Lemma run_schedule_inv sched s : batch_inv s -> batch_inv (run_schedule w sched s).
Proof.
  revert s. induction sched as [|i sched IH]; intros s Hs; [done|].
  unfold run_schedule in *. simpl. by apply IH, step_task_at_inv.
Qed.

Lemma spawned_inv n bd bids :
  only_active (auctionStatusMap bd) ->
  batch_inv {| bs_repo := bd; bs_tasks := map TStart bids; bs_trace := []; bs_tick := n |}.
Proof.
  intros Hm. split; [done|]. cbn [bs_tasks].
  apply Forall_map, Forall_forall. intros b _. by split.
Qed.

Lemma CreateBidBatch_inv sched n bd bids :
  only_active (auctionStatusMap bd) ->
  only_active (auctionStatusMap (bs_repo (CreateBidBatch w sched n bd bids).1)).
Proof.
  intros Hm. unfold CreateBidBatch. cbn [fst].
  by apply run_schedule_inv, run_schedule_inv, spawned_inv.
Qed.

Lemma flush_inv sched tag r :
  only_active (auctionStatusMap (bid_usecase.repository r)) ->
  only_active (auctionStatusMap (bid_usecase.repository (bid_usecase.flush w sched tag r))).
Proof.
  intros Hm.
  destruct (flush_fields w sched tag r) as (_ & _ & _ & _ & -> & _).
  by apply CreateBidBatch_inv.
Qed.

Lemma loop_iter_inv sched ev r :
  only_active (auctionStatusMap (bid_usecase.repository r)) ->
  only_active (auctionStatusMap (bid_usecase.repository (bid_usecase.loop_iter w sched ev r))).
Proof.
  intros Hm. unfold bid_usecase.loop_iter. destruct ev as [b| |].
  - destruct (_ <=? _); [|done].
    unfold bid_usecase.clear_and_reset. cbn [bid_usecase.repository].
    by apply flush_inv.
  - destruct (_ <? _); [|done].
    unfold bid_usecase.do_return. cbn [bid_usecase.repository].
    by apply flush_inv.
  - unfold bid_usecase.clear_and_reset. cbn [bid_usecase.repository].
    by apply flush_inv.
Qed.

Lemma run_loop_inv evs r :
  only_active (auctionStatusMap (bid_usecase.repository r)) ->
  only_active (auctionStatusMap (bid_usecase.repository (bid_usecase.run_loop w evs r))).
Proof.
  revert r. induction evs as [|[ev sched] evs IH]; intros r Hm; simpl; [done|].
  destruct (bid_usecase.returned r); [done|]. by apply IH, loop_iter_inv.
Qed.

End StatusCache.

(** C9.  Start from the repository [NewBidRepository] makes and let the loop
    run over any events, under any world and any schedules.  Then every value
    in the status cache is Active; and in a batch started from there, at
    every point of every interleaving, the status cache still holds Active
    only and the status a goroutine holds from its cache read is Active,
    never Completed: the [auctionStatus == Completed] test of the hit branch
    is never true. *)
Theorem C9_status_cache_only_active (w : World)
    (evs : list (bid_usecase.Ready * list nat)) (n : nat) (maxBatchSize : Z)
    (maxSizeInterval auctionInterval : time.Duration)
    (sched : list nat) (bids : list bid_entity.Bid) :
  let r := bid_usecase.run_loop w evs
             (bid_usecase.NewRoutine w n maxBatchSize maxSizeInterval
                (NewBidRepository auctionInterval)) in
  let mid := run_schedule w sched
               {| bs_repo := bid_usecase.repository r;
                  bs_tasks := map TStart bids;
                  bs_trace := [];
                  bs_tick := bid_usecase.tick r |} in
  map_Forall (fun _ st => st = auction_entity.Active)
    (auctionStatusMap (bid_usecase.repository r))
  /\ map_Forall (fun _ st => st = auction_entity.Active)
       (auctionStatusMap (bs_repo mid))
  /\ Forall (fun t => forall st, cached_status_of t = Some st ->
                        st = auction_entity.Active
                        /\ (st =? auction_entity.Completed) = false)
       (bs_tasks mid).
Proof.
  cbv zeta.
  assert (only_active
            (auctionStatusMap
               (bid_usecase.repository
                  (bid_usecase.run_loop w evs
                     (bid_usecase.NewRoutine w n maxBatchSize maxSizeInterval
                        (NewBidRepository auctionInterval)))))) as Hr.
  { apply run_loop_inv. cbn. apply map_Forall_empty. }
  split; [exact Hr|].
  pose proof (run_schedule_inv w sched _ (spawned_inv
                (bid_usecase.tick
                   (bid_usecase.run_loop w evs
                      (bid_usecase.NewRoutine w n maxBatchSize maxSizeInterval
                         (NewBidRepository auctionInterval))))
                _ bids Hr)) as [Hm Ht].
  split; [exact Hm|].
  eapply Forall_impl; [exact Ht|].
  intros t [Hc _] st Hst. by rewrite (Hc st Hst).
Qed.

(** ** The channel is never closed *)

Section Shutdown.
Import process.

Variable w : World.
Variable uuid_Validate : string -> bool.

Lemma step_never_closed s l s' :
  never_closed s -> step w uuid_Validate s l s' -> never_closed s'.
Proof.
  intros (Hc & Hr & Hd) Hstep.
  inversion Hstep; subst; unfold never_closed;
    cbn [bidChannel routine deferred_close_ran with_buf closed];
    rewrite ?loop_iter_returned_item, ?loop_iter_returned_timer;
    try done; congruence.
Qed.

Lemma reachable_never_closed s0 s :
  never_closed s0 -> reachable w uuid_Validate s0 s -> never_closed s.
Proof.
  intros H0. induction 1 as [|s l s' _ IH Hstep]; [done|].
  by eapply step_never_closed.
Qed.

Lemma initDependencies_never_closed n ai mb mi :
  never_closed (initDependencies w n ai mb mi).
Proof. done. Qed.

(** What the drain branch would do, were the closed channel ever seen. *)
Lemma loop_iter_drain sched r :
  let r' := bid_usecase.loop_iter w sched bid_usecase.RecvClosed r in
  bid_usecase.returned r' = true
  /\ (bid_usecase.bidBatch r <> [] ->
      bid_usecase.in_flight r' = replicate (length (bid_usecase.bidBatch r)) TDone
      /\ bid_usecase.trace r'
         = bid_usecase.trace r
           ++ EvCreateBidBatch (bid_usecase.bidBatch r)
              :: bs_trace (CreateBidBatch w sched (bid_usecase.tick r)
                             (bid_usecase.repository r) (bid_usecase.bidBatch r)).1).
Proof.
  cbv zeta. unfold bid_usecase.loop_iter.
  destruct (bid_usecase.bidBatch r) as [|b l] eqn:Hb; cbn [length].
  - split; [done|]. by intros [].
  - replace (0 <? Z.of_nat (S (length l))) with true by (symmetry; apply Z.ltb_lt; lia).
    unfold bid_usecase.do_return.
    cbn [bid_usecase.returned bid_usecase.in_flight bid_usecase.trace].
    destruct (flush_fields w sched "[A] error trying to create bid batch on goroutine" r)
      as (_ & _ & _ & _ & _ & Ht & _ & Hf & _).
    rewrite Hb in *. by rewrite Ht, Hf.
Qed.

Lemma dead_process_is_stuck s l s' :
  alive s = false -> ~ step w uuid_Validate s l s'.
Proof. intros Hd Hstep. inversion Hstep; congruence. Qed.

End Shutdown.

(** C10.  In every state the process reaches from [initDependencies] the
    channel is open, the goroutine is in its loop and its deferred [close]
    has not run; so the receive never reports a closed channel (the drain
    branch is not taken) and the loop never returns. *)
Theorem C10_channel_never_closed (w : World) (uuid_Validate : string -> bool)
    (n : nat) (auctionInterval : option time.Duration) (maxBatchSize : option Z)
    (maxSizeInterval : option time.Duration) (s : process.System) :
  process.reachable w uuid_Validate
    (process.initDependencies w n auctionInterval maxBatchSize maxSizeInterval) s ->
  process.closed (process.bidChannel s) = false
  /\ bid_usecase.returned (process.routine s) = false
  /\ (forall l s', process.step w uuid_Validate s l s' ->
        l <> process.LRecvClosed /\ l <> process.LDeferredClose).
Proof.
  intros Hreach.
  destruct (reachable_never_closed w uuid_Validate _ s
              (initDependencies_never_closed w n auctionInterval maxBatchSize
                 maxSizeInterval) Hreach) as (Hc & Hr & Hd).
  split; [done|]. split; [done|].
  intros l s' Hstep. inversion Hstep; subst; split; congruence.
Qed.

(** One submission, then its receipt by the goroutine. *)
Lemma scenario_reaches_s2 :
  process.reachable scenario.w0 scenario.canonical_uuid scenario.s0 scenario.s2.
Proof.
  eapply process.reach_step.
  - eapply process.reach_step; [apply process.reach_start|].
    exact (process.step_submit scenario.w0 scenario.canonical_uuid scenario.s0
             (bid_entity.Id scenario.bidLate) (bid_entity.Timestamp scenario.bidLate)
             scenario.dtoLate scenario.bidLate eq_refl eq_refl eq_refl eq_refl).
  - exact (process.step_recv scenario.w0 scenario.canonical_uuid scenario.s1
             scenario.bidLate [] [] eq_refl eq_refl eq_refl).
Defined.

(** C10 in the scenario: after a submission and its receipt the channel is
    open and the loop goes on, one bid waiting in the batch. *)
Lemma C10_channel_never_closed_witness :
  process.closed (process.bidChannel scenario.s2) = false
  /\ bid_usecase.returned (process.routine scenario.s2) = false
  /\ bid_usecase.bidBatch (process.routine scenario.s2) = [scenario.bidLate].
Proof.
  destruct (C10_channel_never_closed scenario.w0 scenario.canonical_uuid 0
              None None None scenario.s2 scenario_reaches_s2) as (Hc & Hr & _).
  exact (conj Hc (conj Hr eq_refl)).
Defined.

(** C5 at its failing input.  One bid has been submitted and received, so it
    waits in [bidBatch]; [main] leaves.  The process is dead with the channel
    still open, the bid still in the batch and nothing done about it: no
    [CreateBidBatch], no lookup, no insert, no log line. *)
Lemma C5_pending_bid_lost_at_exit :
  process.reachable scenario.w0 scenario.canonical_uuid scenario.s0 scenario.s3
  /\ process.alive scenario.s3 = false
  /\ process.closed (process.bidChannel scenario.s3) = false
  /\ bid_usecase.returned (process.routine scenario.s3) = false
  /\ bid_usecase.bidBatch (process.routine scenario.s3) = [scenario.bidLate]
  /\ bid_usecase.trace (process.routine scenario.s3) = [].
Proof.
  split; [|repeat split; reflexivity].
  eapply process.reach_step; [apply scenario_reaches_s2|].
  exact (process.step_exit scenario.w0 scenario.canonical_uuid scenario.s2 eq_refl).
Qed.

(** ** The ingestion gateway *)

(** [CreateBid] sends nothing and returns a bad-request error when an id is
    refused by [uuid.Validate] or the amount compares [<= 0]; otherwise it
    sends the one bid it made and returns nil.  It touches nothing but the
    channel. *)
Lemma CreateBid_outcome (uuid_Validate : string -> bool) (newId : string)
    (now : time.Time) (dto : bid_usecase.BidInputDTO) :
  if negb (uuid_Validate (bid_usecase.UserId dto))
     || negb (uuid_Validate (bid_usecase.AuctionId dto))
     || (bid_usecase.Amount dto <=? 0)%float
  then exists msg,
         bid_usecase.CreateBid uuid_Validate newId now dto
         = ([], Some (NewBadRequestError msg))
  else bid_usecase.CreateBid uuid_Validate newId now dto
       = ([bid_usecase.Send
             {| bid_entity.Id := newId;
                bid_entity.UserId := bid_usecase.UserId dto;
                bid_entity.AuctionId := bid_usecase.AuctionId dto;
                bid_entity.Amount := bid_usecase.Amount dto;
                bid_entity.Timestamp := now |}], None).
Proof.
  unfold bid_usecase.CreateBid, bid_entity.CreateBid, bid_entity.Validate.
  cbn [bid_entity.UserId bid_entity.AuctionId bid_entity.Amount].
  destruct (uuid_Validate (bid_usecase.UserId dto)); cbn [negb orb]; [|by eexists].
  destruct (uuid_Validate (bid_usecase.AuctionId dto)); cbn [negb orb]; [|by eexists].
  destruct (bid_usecase.Amount dto <=? 0)%float; [by eexists|done].
Qed.

(** An amount that is a number compares [<= 0] exactly when it is not
    greater than 0. *)
Lemma leb_zero_not_greater (x : float) :
  is_nan x = false -> (x <=? 0)%float = negb (0 <? x)%float.
Proof.
  unfold is_nan. rewrite FloatAxioms.eqb_spec, FloatAxioms.leb_spec, FloatAxioms.ltb_spec.
  change (Prim2SF 0) with (S754_zero false).
  destruct (Prim2SF x) as [s|s| |s m e]; try destruct s; cbn.
  all: try discriminate; try reflexivity.
Qed.

(** The hypothesis is needed: a NaN is not greater than 0 and does not
    compare [<= 0] either.  The JSON binding of the one caller cannot deliver
    it. *)
Example nan_compares_false :
  is_nan nan = true /\ (nan <=? 0)%float = false /\ (0 <? nan)%float = false.
Proof. repeat split. Qed.

Lemma step_task_at_trace (w : World) i st :
  exists evs, bs_trace (step_task_at w i st) = bs_trace st ++ evs.
Proof.
  unfold step_task_at. destruct (bs_tasks st !! i) as [t|]; [|exists []; by rewrite app_nil_r].
  destruct (is_done t); [exists []; by rewrite app_nil_r|].
  destruct (task_step w (bs_tick st) (bs_repo st) t) as [[bd t'] evs]. by exists evs.
Qed.

Lemma forallb_is_done (l : list Task) :
  forallb is_done l = true <-> Forall (fun t => t = TDone) l.
Proof.
  induction l as [|t l IH]; cbn [forallb]; [by split; [constructor|]|].
  rewrite Forall_cons, <-IH.
  destruct t; cbn [is_done andb]; split; try done; by intros [? ?].
Qed.

Section IngestionFacts.
Import bid_usecase ingestion.

Variable w : World.
Variable uuid_Validate : string -> bool.

Local Abbreviation step := (ingestion.step w uuid_Validate).
Local Abbreviation steps := (ingestion.steps w uuid_Validate).

(** A send completes only when the buffer has room or the receiver waits,
    and it completes without a lookup, an insert or a log line. *)
Lemma send_needs_room s b s' : step s (LSend b) s' -> can_send s = true.
Proof.
  unfold can_send. inversion 1 as [? ? ? ? ? _ _ Hroom|? ? ? ? ? _ _ Hcap Hsel| | | |]; subst.
  - apply orb_true_iff. left. by apply Z.ltb_lt.
  - apply orb_true_iff. right. by rewrite Hcap, Hsel.
Qed.

Lemma send_no_event s b s' : step s (LSend b) s' -> events s' = events s.
Proof.
  inversion 1 as [| ? ? ? ? ? _ _ _ Hsel| | | |]; subst; [done|].
  unfold events, received. cbn [routine consumer]. rewrite Hsel.
  by destruct (_ <=? _).
Qed.

Lemma send_completes s newId now dto b :
  CreateBid uuid_Validate newId now dto = ([Send b], None) ->
  process.closed (bidChannel s) = false ->
  can_send s = true ->
  exists s', step s (LSend b) s'.
Proof.
  intros Hcall Hopen Hroom. unfold can_send in Hroom.
  apply orb_true_iff in Hroom as [Hroom|Hroom].
  - eexists. eapply step_send; [done..|]. by apply Z.ltb_lt.
  - apply andb_true_iff in Hroom as [Hcap Hsel].
    eexists. eapply step_handoff; [done..| |].
    + by apply Z.eqb_eq.
    + by destruct (consumer s).
Qed.

(** With no room and the goroutine inside [CreateBidBatch], only the
    goroutines of that batch move, and there is still no room, until
    [wg.Wait()] returns: every goroutine of the batch has returned. *)
Lemma no_room_in_flush s st l s' :
  consumer s = InCreateBidBatch st ->
  can_send s = false ->
  step s l s' ->
  (exists i, l = LTask i
             /\ s' = {| bidChannel := bidChannel s;
                        routine := routine s;
                        consumer := InCreateBidBatch (step_task_at w i st) |}
             /\ can_send s' = false)
  \/ (l = LJoin /\ Forall (fun t => t = TDone) (bs_tasks st)
      /\ s' = {| bidChannel := bidChannel s;
                 routine := clear_and_reset w (joined st (routine s));
                 consumer := AtSelect |}).
Proof.
  intros Hc Hfull Hstep.
  inversion Hstep as [? ? ? ? ? _ _ Hroom|? ? ? ? ? _ _ _ Hsel|? ? ? Hsel _|? Hsel
                      |? st1 i Hc1|? st1 Hc1 Hd]; subst.
  - apply Z.ltb_lt in Hroom. unfold can_send in Hfull. by rewrite Hroom in Hfull.
  - congruence.
  - congruence.
  - congruence.
  - left. exists i. rewrite Hc in Hc1. injection Hc1 as <-. repeat split.
    unfold can_send in *. cbn [bidChannel consumer at_select]. rewrite Hc in Hfull.
    by cbn [at_select] in Hfull.
  - right. rewrite Hc in Hc1. injection Hc1 as <-. repeat split.
    by apply forallb_is_done.
Qed.

(** So a send that finds no room while a flush runs completes only after
    [CreateBidBatch] has returned. *)
Lemma no_room_until_join s st ls s' :
  consumer s = InCreateBidBatch st ->
  can_send s = false ->
  steps s ls s' ->
  can_send s' = true ->
  LJoin ∈ ls.
Proof.
  intros Hc Hfull Hrun. revert st Hc Hfull.
  induction Hrun as [s|s l s1 ls s2 Hstep Hrun IH]; intros st Hc Hfull Hroom; [congruence|].
  destruct (no_room_in_flush s st l s1 Hc Hfull Hstep)
    as [(i & -> & -> & Hfull1)|(-> & _)]; [|apply list_elem_of_here].
  apply list_elem_of_further. by eapply IH.
Qed.

(** What has been done stays done. *)
Lemma step_keeps_events s l s' e : step s l s' -> e ∈ events s -> e ∈ events s'.
Proof.
  inversion 1 as [|? ? ? ? ? _ _ _ Hsel|? ? ? Hsel _|? Hsel|? st i Hc|? st Hc _]; subst;
    unfold events, received; cbn [routine consumer trace append_bid clear_and_reset joined];
    rewrite ?Hsel, ?Hc; try done.
  - by destruct (_ <=? _).
  - by destruct (_ <=? _).
  - destruct (step_task_at_trace w i st) as [evs ->].
    rewrite !elem_of_app. tauto.
  - rewrite !elem_of_app. tauto.
Qed.

Lemma steps_keeps_events s ls s' e : steps s ls s' -> e ∈ events s -> e ∈ events s'.
Proof. induction 1; eauto using step_keeps_events. Qed.

Lemma steps_app s l1 s' l2 s'' :
  steps s l1 s' -> steps s' l2 s'' -> steps s (l1 ++ l2) s''.
Proof. induction 1; intros; [done|]. cbn [app]. econstructor; eauto. Qed.

Lemma steps_tasks c r l st :
  steps {| bidChannel := c; routine := r; consumer := InCreateBidBatch st |}
        (map LTask l)
        {| bidChannel := c; routine := r;
           consumer := InCreateBidBatch (run_schedule w l st) |}.
Proof.
  revert st. induction l as [|i l IH]; intros st; [constructor|].
  cbn [map]. econstructor; [|apply (IH (step_task_at w i st))].
  by apply (step_task _ _ {| bidChannel := c; routine := r;
                             consumer := InCreateBidBatch st |}).
Qed.

(** The moves agree with the loop taken an iteration at a time: the
    goroutines of a flush scheduled by [sched] and then joined leave what
    [flush] computes. *)
Lemma flush_in_moves c r sched tag :
  steps {| bidChannel := c; routine := r; consumer := InCreateBidBatch (spawn r) |}
        (map LTask (sched ++ wait_schedule (length (bidBatch r))) ++ [LJoin])
        {| bidChannel := c;
           routine := clear_and_reset w (flush w sched tag r);
           consumer := AtSelect |}.
Proof.
  eapply steps_app; [apply steps_tasks|].
  pose proof (CreateBidBatch_all_done w sched (tick r) (repository r) (bidBatch r)) as Hd.
  unfold CreateBidBatch in Hd. cbn [fst] in Hd. rewrite <-run_schedule_app in Hd.
  econstructor; [|constructor].
  set (st := run_schedule w _ (spawn r)).
  replace (flush w sched tag r) with (joined st r).
  - apply (step_join _ _ {| bidChannel := c; routine := r;
                            consumer := InCreateBidBatch st |}); [done|].
    by apply forallb_is_done.
  - unfold flush, CreateBidBatch, joined. subst st. rewrite run_schedule_app.
    cbn [app]. by rewrite app_nil_r.
Qed.

Lemma recv_in_moves c b rest r sched :
  process.buf c = b :: rest ->
  exists ls,
    steps {| bidChannel := c; routine := r; consumer := AtSelect |}
          (LRecv b :: ls)
          {| bidChannel := process.with_buf c rest;
             routine := loop_iter w sched (RecvBid b) r;
             consumer := AtSelect |}.
Proof.
  intros Hbuf. unfold loop_iter.
  destruct (maxBatchSize (append_bid b r) <=? _) eqn:Hfull.
  - eexists. econstructor.
    + by apply (step_recv _ _ {| bidChannel := c; routine := r; consumer := AtSelect |} b rest).
    + unfold received. cbn [bidChannel routine]. rewrite Hfull.
      apply (flush_in_moves _ _ sched "[B] error trying to create bid batch on goroutine").
  - exists []. econstructor; [|constructor].
    replace {| bidChannel := process.with_buf c rest; routine := append_bid b r;
               consumer := AtSelect |}
      with (received (process.with_buf c rest) b r).
    + by apply (step_recv _ _ {| bidChannel := c; routine := r; consumer := AtSelect |} b rest).
    + unfold received. by rewrite Hfull.
Qed.

Lemma timer_in_moves c r sched :
  exists ls,
    steps {| bidChannel := c; routine := r; consumer := AtSelect |}
          (LTimer :: ls)
          {| bidChannel := c;
             routine := loop_iter w sched TimerC r;
             consumer := AtSelect |}.
Proof.
  eexists. econstructor; [|apply flush_in_moves].
  by apply (step_timer _ _ {| bidChannel := c; routine := r; consumer := AtSelect |}).
Qed.

End IngestionFacts.

(** C6 (as amended).  [CreateBid] returns a bad-request error and touches
    nothing when an id is refused by [uuid.Validate] or the amount compares
    [<= 0], which for every amount that is a number means: is not greater
    than 0.  Otherwise it makes one bid of the input, sends it once on
    [bidChannel] and returns nil; it calls no collaborator.  The send
    completes at once, with no lookup or insert made, when the buffer has
    room or the unbuffered channel's receiver waits in [select], and only
    then.  With no room while the batching goroutine is inside
    [CreateBidBatch], nothing moves but the goroutines of that batch, and a
    send completes only after [wg.Wait()] returned, with every goroutine of
    the batch at its end. *)
Theorem C6_submission_outcome_and_wait (w : World) (uuid_Validate : string -> bool)
    (newId : string) (now : time.Time) (dto : bid_usecase.BidInputDTO) :
  let bid := {| bid_entity.Id := newId;
                bid_entity.UserId := bid_usecase.UserId dto;
                bid_entity.AuctionId := bid_usecase.AuctionId dto;
                bid_entity.Amount := bid_usecase.Amount dto;
                bid_entity.Timestamp := now |} in
  let call := bid_usecase.CreateBid uuid_Validate newId now dto in
  (if negb (uuid_Validate (bid_usecase.UserId dto))
      || negb (uuid_Validate (bid_usecase.AuctionId dto))
      || (bid_usecase.Amount dto <=? 0)%float
   then exists msg, call = ([], Some (NewBadRequestError msg))
   else call = ([bid_usecase.Send bid], None))
  /\ (is_nan (bid_usecase.Amount dto) = false ->
      (bid_usecase.Amount dto <=? 0)%float = negb (0 <? bid_usecase.Amount dto)%float)
  /\ (forall s,
        call = ([bid_usecase.Send bid], None) ->
        process.closed (ingestion.bidChannel s) = false ->
        ingestion.can_send s = true ->
        exists s', ingestion.step w uuid_Validate s (ingestion.LSend bid) s'
                   /\ ingestion.events s' = ingestion.events s)
  /\ (forall s b s',
        ingestion.step w uuid_Validate s (ingestion.LSend b) s' ->
        ingestion.can_send s = true /\ ingestion.events s' = ingestion.events s)
  /\ (forall s st l s',
        ingestion.consumer s = ingestion.InCreateBidBatch st ->
        ingestion.can_send s = false ->
        ingestion.step w uuid_Validate s l s' ->
        (exists i, l = ingestion.LTask i
                   /\ s' = {| ingestion.bidChannel := ingestion.bidChannel s;
                              ingestion.routine := ingestion.routine s;
                              ingestion.consumer :=
                                ingestion.InCreateBidBatch (step_task_at w i st) |}
                   /\ ingestion.can_send s' = false)
        \/ (l = ingestion.LJoin
            /\ Forall (fun t => t = TDone) (bs_tasks st)
            /\ s' = {| ingestion.bidChannel := ingestion.bidChannel s;
                       ingestion.routine :=
                         bid_usecase.clear_and_reset w
                           (ingestion.joined st (ingestion.routine s));
                       ingestion.consumer := ingestion.AtSelect |}))
  /\ (forall s st ls s',
        ingestion.consumer s = ingestion.InCreateBidBatch st ->
        ingestion.can_send s = false ->
        ingestion.steps w uuid_Validate s ls s' ->
        ingestion.can_send s' = true ->
        ingestion.LJoin ∈ ls).
Proof.
  cbv zeta. split; [apply CreateBid_outcome|].
  split; [apply leb_zero_not_greater|].
  split.
  { intros s Hcall Hopen Hroom.
    destruct (send_completes w uuid_Validate s _ _ _ _ Hcall Hopen Hroom) as [s' Hs'].
    exists s'. split; [done|]. by eapply send_no_event. }
  split.
  { intros s b s' Hs'. split; [by eapply send_needs_room|by eapply send_no_event]. }
  split; [apply no_room_in_flush|apply no_room_until_join].
Qed.

Section FullQueue.
Import bid_usecase ingestion full_queue_scenario.

Local Abbreviation step := (ingestion.step scenario.w0 scenario.canonical_uuid).
Local Abbreviation steps := (ingestion.steps scenario.w0 scenario.canonical_uuid).

Lemma flushing_no_room k : can_send (flushing k) = false.
Proof. reflexivity. Qed.

Lemma flushing_S k :
  {| bidChannel := bidChannel (flushing k);
     routine := routine (flushing k);
     consumer :=
       InCreateBidBatch
         (step_task_at scenario.w0 0
            (run_schedule scenario.w0 (repeat 0%nat k) (spawn (routine q2)))) |}
  = flushing (S k).
Proof.
  unfold flushing. cbn [bidChannel routine]. do 2 f_equal.
  change (repeat 0%nat (S k)) with (0%nat :: repeat 0%nat k).
  by rewrite repeat_cons, run_schedule_app.
Qed.

Lemma flushing_other k i :
  step_task_at scenario.w0 (S i)
    (run_schedule scenario.w0 (repeat 0%nat k) (spawn (routine q2)))
  = run_schedule scenario.w0 (repeat 0%nat k) (spawn (routine q2)).
Proof.
  apply step_task_at_outside, lookup_ge_None.
  rewrite run_schedule_length. cbn. lia.
Qed.

Lemma flushing_not_done k :
  (k <= 5)%nat ->
  forallb is_done
    (bs_tasks (run_schedule scenario.w0 (repeat 0%nat k) (spawn (routine q2)))) = false.
Proof.
  intros Hk. destruct k as [|[|[|[|[|[|k]]]]]]; try lia; by vm_compute.
Qed.

Lemma flushing_6_inserted : first_bid_inserted (flushing 6).
Proof.
  unfold first_bid_inserted.
  replace (events (flushing 6))
    with [EvFindAuction scenario.auctionX;
          EvInsertBid (toBidEntityMongo scenario.bidLate) true] by by vm_compute.
  apply list_elem_of_further, list_elem_of_here.
Qed.

Lemma waiting_step s l s' :
  (exists k, (k <= 5)%nat /\ s = flushing k) \/ first_bid_inserted s ->
  step s l s' ->
  (exists k, (k <= 5)%nat /\ s' = flushing k) \/ first_bid_inserted s'.
Proof.
  intros [(k & Hk & ->)|Hin] Hstep; [|right; by eapply step_keeps_events].
  destruct (no_room_in_flush _ _ (flushing k) _ l s' eq_refl (flushing_no_room k) Hstep)
    as [(i & -> & -> & _)|(-> & Hd & _)].
  - destruct i as [|i].
    + rewrite flushing_S. destruct (decide (k = 5%nat)) as [->|Hne].
      * right. apply flushing_6_inserted.
      * left. exists (S k). split; [lia|done].
    + rewrite flushing_other. left. by exists k.
  - apply forallb_is_done in Hd. by rewrite flushing_not_done in Hd.
Qed.

Lemma waiting_run s ls s' :
  (exists k, (k <= 5)%nat /\ s = flushing k) \/ first_bid_inserted s ->
  steps s ls s' ->
  (exists k, (k <= 5)%nat /\ s' = flushing k) \/ first_bid_inserted s'.
Proof. intros Hs Hrun. induction Hrun; eauto using waiting_step. Qed.

End FullQueue.

(** C6 as stated fails when the queue is full while a flush runs.  With
    MAX_BATCH_SIZE=1 the first bid is received and the goroutine enters
    [CreateBidBatch]; the second bid fills the buffer.  A third well-formed
    submission makes [CreateBid] send, and the send has no room: nothing has
    been inserted yet, and however the server runs on, by the time any send
    completes the first bid's document has been inserted.  Once the flush
    has returned and the second bid is received, the send goes through. *)
Lemma C6_submission_waits_for_flush :
  ingestion.steps scenario.w0 scenario.canonical_uuid full_queue_scenario.q0
    [ingestion.LSend scenario.bidLate; ingestion.LRecv scenario.bidLate;
     ingestion.LSend full_queue_scenario.bid2]
    (full_queue_scenario.flushing 0)
  /\ bid_usecase.CreateBid scenario.canonical_uuid
       (bid_entity.Id full_queue_scenario.bid3)
       (bid_entity.Timestamp full_queue_scenario.bid3) full_queue_scenario.dto3
     = ([bid_usecase.Send full_queue_scenario.bid3], None)
  /\ ingestion.can_send (full_queue_scenario.flushing 0) = false
  /\ count_inserts (ingestion.events (full_queue_scenario.flushing 0)) = 0%nat
  /\ (forall ls s' b s'',
        ingestion.steps scenario.w0 scenario.canonical_uuid
          (full_queue_scenario.flushing 0) ls s' ->
        ingestion.step scenario.w0 scenario.canonical_uuid s' (ingestion.LSend b) s'' ->
        EvInsertBid (toBidEntityMongo scenario.bidLate) true ∈ ingestion.events s')
  /\ ingestion.steps scenario.w0 scenario.canonical_uuid
       (full_queue_scenario.flushing 0)
       (map ingestion.LTask (repeat 0%nat 6)
        ++ [ingestion.LJoin; ingestion.LRecv full_queue_scenario.bid2])
       full_queue_scenario.q_room
  /\ exists s'',
       ingestion.step scenario.w0 scenario.canonical_uuid full_queue_scenario.q_room
         (ingestion.LSend full_queue_scenario.bid3) s''.
Proof.
  split.
  { econstructor.
    { apply (ingestion.step_send _ _ full_queue_scenario.q0
               (bid_entity.Id scenario.bidLate) (bid_entity.Timestamp scenario.bidLate)
               scenario.dtoLate scenario.bidLate); [reflexivity..|by vm_compute]. }
    econstructor.
    { apply (ingestion.step_recv _ _ full_queue_scenario.q1 scenario.bidLate []);
        reflexivity. }
    econstructor; [|constructor].
    apply (ingestion.step_send _ _ full_queue_scenario.q2
             (bid_entity.Id full_queue_scenario.bid2)
             (bid_entity.Timestamp full_queue_scenario.bid2)
             full_queue_scenario.dto2 full_queue_scenario.bid2);
      [reflexivity..|by vm_compute]. }
  split; [reflexivity|]. split; [reflexivity|]. split; [reflexivity|].
  split.
  { intros ls s' b s'' Hrun Hsend.
    destruct (waiting_run _ _ _ (or_introl (ex_intro _ 0%nat (conj (Nat.le_0_l 5) eq_refl))) Hrun)
      as [(k & _ & ->)|Hin]; [|done].
    apply send_needs_room in Hsend. by rewrite flushing_no_room in Hsend. }
  split.
  { eapply steps_app; [apply steps_tasks|].
    econstructor.
    { apply (ingestion.step_join _ _ (full_queue_scenario.flushing 6)
               (run_schedule scenario.w0 (repeat 0%nat 6)
                  (ingestion.spawn (ingestion.routine full_queue_scenario.q2))));
        [reflexivity|by vm_compute]. }
    econstructor; [|constructor].
    apply (ingestion.step_recv _ _ full_queue_scenario.q_joined full_queue_scenario.bid2 []);
      reflexivity. }
  apply (send_completes _ _ full_queue_scenario.q_room
           (bid_entity.Id full_queue_scenario.bid3)
           (bid_entity.Timestamp full_queue_scenario.bid3)
           full_queue_scenario.dto3); reflexivity.
Qed.

(** The theorem at the third submission of the scenario: the input is well
    formed, and once the buffer has room again its send completes with
    nothing else done. *)
Lemma C6_submission_outcome_and_wait_witness :
  bid_usecase.CreateBid scenario.canonical_uuid
    (bid_entity.Id full_queue_scenario.bid3)
    (bid_entity.Timestamp full_queue_scenario.bid3) full_queue_scenario.dto3
  = ([bid_usecase.Send full_queue_scenario.bid3], None)
  /\ (bid_usecase.Amount full_queue_scenario.dto3 <=? 0)%float
     = negb (0 <? bid_usecase.Amount full_queue_scenario.dto3)%float
  /\ exists s',
       ingestion.step scenario.w0 scenario.canonical_uuid full_queue_scenario.q_room
         (ingestion.LSend full_queue_scenario.bid3) s'
       /\ ingestion.events s' = ingestion.events full_queue_scenario.q_room.
Proof.
  destruct (C6_submission_outcome_and_wait scenario.w0 scenario.canonical_uuid
              (bid_entity.Id full_queue_scenario.bid3)
              (bid_entity.Timestamp full_queue_scenario.bid3)
              full_queue_scenario.dto3) as (Hcall & Hnum & Hroom & _).
  split; [exact Hcall|].
  split; [exact (Hnum eq_refl)|].
  exact (Hroom full_queue_scenario.q_room eq_refl eq_refl eq_refl).
Defined.


(** * Further properties of the batch processor *)

(** ** Budgets: what a batch can do at most *)

Section Budget.

Variable w : World.
Variable cnt : list Event -> nat.
Variable left : Task -> nat.

Hypothesis cnt_app : forall tr1 tr2, cnt (tr1 ++ tr2) = (cnt tr1 + cnt tr2)%nat.
Hypothesis step_budget : forall n bd t,
  (cnt (task_step w n bd t).2 + left (task_step w n bd t).1.2 <= left t)%nat.

Lemma sum_left_insert (l : list Task) i t t' :
  l !! i = Some t ->
  (sum_list (left <$> <[i := t']> l) + left t = sum_list (left <$> l) + left t')%nat.
Proof.
  revert i. induction l as [|x l IH]; intros [|i] Hi; simplify_eq/=; [lia|].
  specialize (IH i Hi). lia.
Qed.

Lemma step_task_at_budget i s :
  (cnt (bs_trace (step_task_at w i s)) + sum_list (left <$> bs_tasks (step_task_at w i s))
   <= cnt (bs_trace s) + sum_list (left <$> bs_tasks s))%nat.
Proof using All.
  unfold step_task_at. destruct (bs_tasks s !! i) as [t|] eqn:Hi; [|done].
  destruct (is_done t); [done|].
  pose proof (step_budget (bs_tick s) (bs_repo s) t) as Hb.
  destruct (task_step w (bs_tick s) (bs_repo s) t) as [[bd t'] evs].
  cbn [fst snd bs_trace bs_tasks] in *. rewrite cnt_app.
  pose proof (sum_left_insert (bs_tasks s) i t t' Hi). lia.
Qed.

Lemma run_schedule_budget sched s :
  (cnt (bs_trace (run_schedule w sched s))
   + sum_list (left <$> bs_tasks (run_schedule w sched s))
   <= cnt (bs_trace s) + sum_list (left <$> bs_tasks s))%nat.
Proof using All.
  revert s. induction sched as [|i sched IH]; intros s; [done|].
  unfold run_schedule in *. cbn [fold_left].
  etrans; [apply IH|]. apply step_task_at_budget.
Qed.

Lemma CreateBidBatch_budget sched n bd bids :
  cnt [] = 0%nat ->
  (forall b, left (TStart b) = 1%nat) ->
  (cnt (bs_trace (CreateBidBatch w sched n bd bids).1) <= length bids)%nat.
Proof using All.
  intros H0 H1. unfold CreateBidBatch. cbn [fst].
  set (s0 := {| bs_repo := bd; bs_tasks := map TStart bids; bs_trace := [];
                bs_tick := n |}).
  pose proof (run_schedule_budget (wait_schedule (length bids)) (run_schedule w sched s0)).
  pose proof (run_schedule_budget sched s0) as Hs.
  assert (sum_list (left <$> bs_tasks s0) = length bids) as Hsum.
  { subst s0. cbn [bs_tasks]. clear -H1.
    induction bids as [|b bids IH]; [done|]. cbn. rewrite H1. by f_equal. }
  subst s0. cbn [bs_trace] in *. rewrite H0 in *. lia.
Qed.

End Budget.

(** The miss step of a goroutine, split on what the lookup returned. *)
Ltac split_lookup Hc :=
  match goal with
  | |- context [FindAuctionById ?w ?n ?id] =>
      pose proof (Hc w n id);
      destruct (FindAuctionById w n id) as [? [?|?]]; cbn [fst snd] in *;
      [destruct (negb _); cbn [fst snd] in *|]
  end.

Lemma task_step_lookup_budget w n bd t :
  (count_lookups (task_step w n bd t).2 + lookups_left (task_step w n bd t).1.2
   <= lookups_left t)%nat.
Proof.
  destruct t as [b|b st|b [st|] [et|]|b a|b a|b msg|]; cbn [task_step];
    try (cbn; lia);
    try (split_lookup count_lookups_FindAuctionById;
         rewrite ?count_lookups_app; cbn in *; lia).
  - destruct (_ || _); cbn; lia.
  - cbn [fst snd lookups_left]. rewrite count_lookups_insert_bid. lia.
Qed.

Lemma task_step_insert_budget w n bd t :
  (count_inserts (task_step w n bd t).2 + inserts_left (task_step w n bd t).1.2
   <= inserts_left t)%nat.
Proof.
  destruct t as [b|b st|b [st|] [et|]|b a|b a|b msg|]; cbn [task_step];
    try (cbn; lia);
    try (split_lookup count_inserts_FindAuctionById;
         rewrite ?count_inserts_app; cbn in *; lia).
  - destruct (_ || _); cbn; lia.
  - cbn [fst snd inserts_left]. rewrite count_inserts_insert_bid. lia.
Qed.

(** X1.  Whatever the schedule and the answers of the collaborators, a batch
    of [k] bids makes at most [k] Auction Lookup calls and at most [k] Bid
    Store calls: no goroutine looks up or inserts twice. *)
Theorem X1_at_most_one_lookup_and_insert_per_bid (w : World) (sched : list nat)
    (n : nat) (bd : BidRepository) (bids : list bid_entity.Bid) :
  (count_lookups (bs_trace (CreateBidBatch w sched n bd bids).1) <= length bids)%nat
  /\ (count_inserts (bs_trace (CreateBidBatch w sched n bd bids).1) <= length bids)%nat.
Proof.
  split.
  - apply (CreateBidBatch_budget w count_lookups lookups_left);
      auto using count_lookups_app, task_step_lookup_budget.
  - apply (CreateBidBatch_budget w count_inserts inserts_left);
      auto using count_inserts_app, task_step_insert_budget.
Qed.

(** ** Provenance: a batch touches the collaborators for its own bids only *)

Section Provenance.

Variable w : World.
Variable bids : list bid_entity.Bid.

Lemma insert_bid_of_batch n b msg :
  b ∈ bids -> Forall (event_of_batch bids) (insert_bid w n b msg).
Proof.
  intros Hb. unfold insert_bid. destruct (bids_InsertOne w n _);
    repeat constructor; by exists b.
Qed.

Lemma FindAuctionById_of_batch n b :
  b ∈ bids ->
  Forall (event_of_batch bids) (FindAuctionById w n (bid_entity.AuctionId b)).1.
Proof.
  intros Hb. unfold FindAuctionById. destruct (auctions_FindOne w n _);
    repeat constructor; by exists b.
Qed.

Lemma task_step_of_batch n bd t :
  (forall b, task_bid t = Some b -> b ∈ bids) ->
  (forall b, task_bid (task_step w n bd t).1.2 = Some b -> b ∈ bids)
  /\ Forall (event_of_batch bids) (task_step w n bd t).2.
Proof.
  intros Ht.
  destruct t as [b|b st|b [st|] [et|]|b a|b a|b msg|]; cbn [task_step];
    try (assert (b ∈ bids) as Hb by (by apply Ht));
    try (split; [by intros ? [= <-]|by constructor]);
    try (pose proof (FindAuctionById_of_batch n b Hb) as Hf;
         destruct (FindAuctionById w n _) as [evs [a|e]]; cbn [fst snd] in *;
         [destruct (negb _); cbn [fst snd]|];
         (split; [by (intros ? [= <-] || intros ? [=])|]);
         rewrite ?Forall_app; repeat split; by repeat constructor).
  - destruct (_ || _); cbn [fst snd]; split;
      by (intros ? [= <-] || intros ? [=] || constructor).
  - cbn [fst snd]. split; [by intros ? [=]|]. by apply insert_bid_of_batch.
Qed.

Lemma step_task_at_of_batch i s :
  tasks_of_batch bids (bs_tasks s) -> Forall (event_of_batch bids) (bs_trace s) ->
  tasks_of_batch bids (bs_tasks (step_task_at w i s))
  /\ Forall (event_of_batch bids) (bs_trace (step_task_at w i s)).
Proof.
  intros Ht He. unfold step_task_at.
  destruct (bs_tasks s !! i) as [t|] eqn:Hi; [|done].
  destruct (is_done t); [done|].
  assert (forall b, task_bid t = Some b -> b ∈ bids) as Hti.
  { by apply (Forall_lookup_1 _ _ _ _ Ht Hi). }
  pose proof (task_step_of_batch (bs_tick s) (bs_repo s) t Hti) as [H1 H2].
  destruct (task_step w (bs_tick s) (bs_repo s) t) as [[bd t'] evs].
  cbn [fst snd bs_tasks bs_trace] in *. split.
  - by apply Forall_insert.
  - by apply Forall_app.
Qed.

Lemma run_schedule_of_batch sched s :
  tasks_of_batch bids (bs_tasks s) -> Forall (event_of_batch bids) (bs_trace s) ->
  tasks_of_batch bids (bs_tasks (run_schedule w sched s))
  /\ Forall (event_of_batch bids) (bs_trace (run_schedule w sched s)).
Proof.
  revert s. induction sched as [|i sched IH]; intros s Ht He; [done|].
  unfold run_schedule in *. cbn [fold_left].
  destruct (step_task_at_of_batch i s Ht He). by apply IH.
Qed.

End Provenance.

Lemma CreateBidBatch_of_batch (w : World) (sched : list nat) (n : nat)
    (bd : BidRepository) (bids : list bid_entity.Bid) :
  Forall (event_of_batch bids) (bs_trace (CreateBidBatch w sched n bd bids).1).
Proof.
  unfold CreateBidBatch. cbn [fst].
  set (s0 := {| bs_repo := bd; bs_tasks := map TStart bids; bs_trace := [];
                bs_tick := n |}).
  assert (tasks_of_batch bids (bs_tasks s0)) as Ht.
  { apply Forall_forall. intros t Hin b Hb. subst s0. cbn [bs_tasks] in Hin.
    apply list_elem_of_fmap in Hin as (b' & -> & Hb'). by injection Hb as <-. }
  destruct (run_schedule_of_batch w bids sched s0 Ht) as [Ht1 He1]; [constructor|].
  by destruct (run_schedule_of_batch w bids (wait_schedule (length bids)) _ Ht1 He1).
Qed.

(** X2.  Every call a batch makes is for one of its bids: each lookup asks
    for the auction of a bid of the batch, each insert stores the document of
    a bid of the batch, under any schedule. *)
Theorem X2_batch_calls_are_for_its_bids (w : World) (sched : list nat) (n : nat)
    (bd : BidRepository) (bids : list bid_entity.Bid) :
  Forall (fun e =>
            match e with
            | EvFindAuction id => exists b, b ∈ bids /\ id = bid_entity.AuctionId b
            | EvInsertBid doc _ => exists b, b ∈ bids /\ doc = toBidEntityMongo b
            | EvCreateBidBatch _ => False
            | EvLog _ => True
            end)
    (bs_trace (CreateBidBatch w sched n bd bids).1).
Proof. apply CreateBidBatch_of_batch. Qed.

(** ** The caches only grow *)

Section CacheGrowth.

Variable w : World.

Lemma keys_kept_refl {V : Type} (m : gmap string V) : keys_kept m m.
Proof. by intros id. Qed.

Lemma keys_kept_trans {U V W : Type} (m1 : gmap string U) (m2 : gmap string V)
    (m3 : gmap string W) :
  keys_kept m1 m2 -> keys_kept m2 m3 -> keys_kept m1 m3.
Proof. intros H1 H2 id Hid. by apply H2, H1. Qed.

Lemma keys_kept_insert {V : Type} (m : gmap string V) id v :
  keys_kept m (<[id := v]> m).
Proof.
  intros id' Hid. destruct (decide (id = id')) as [->|Hne].
  - rewrite lookup_insert_eq. by eexists.
  - by rewrite lookup_insert_ne.
Qed.

Lemma task_step_grows n bd t :
  keys_kept (auctionStatusMap bd) (auctionStatusMap (task_step w n bd t).1.1)
  /\ keys_kept (auctionEndTimeMap bd) (auctionEndTimeMap (task_step w n bd t).1.1)
  /\ auctionInterval (task_step w n bd t).1.1 = auctionInterval bd.
Proof.
  destruct t as [b|b st|b [st|] [et|]|b a|b a|b msg|]; cbn [task_step];
    try (repeat split; apply keys_kept_refl);
    try (destruct (FindAuctionById w n _) as [evs [a|e]]; cbn [fst snd];
         [destruct (negb _)|]; repeat split; apply keys_kept_refl).
  - destruct (_ || _); repeat split; apply keys_kept_refl.
  - cbn [fst snd auctionStatusMap auctionEndTimeMap auctionInterval].
    repeat split; [apply keys_kept_insert|apply keys_kept_refl].
  - cbn [fst snd auctionStatusMap auctionEndTimeMap auctionInterval].
    repeat split; [apply keys_kept_refl|apply keys_kept_insert].
Qed.

Lemma step_task_at_grows i s :
  keys_kept (auctionStatusMap (bs_repo s)) (auctionStatusMap (bs_repo (step_task_at w i s)))
  /\ keys_kept (auctionEndTimeMap (bs_repo s))
       (auctionEndTimeMap (bs_repo (step_task_at w i s)))
  /\ auctionInterval (bs_repo (step_task_at w i s)) = auctionInterval (bs_repo s).
Proof.
  unfold step_task_at. destruct (bs_tasks s !! i) as [t|];
    [|repeat split; apply keys_kept_refl].
  destruct (is_done t); [repeat split; apply keys_kept_refl|].
  pose proof (task_step_grows (bs_tick s) (bs_repo s) t) as H.
  by destruct (task_step w (bs_tick s) (bs_repo s) t) as [[bd t'] evs].
Qed.

Lemma run_schedule_grows sched s :
  keys_kept (auctionStatusMap (bs_repo s))
    (auctionStatusMap (bs_repo (run_schedule w sched s)))
  /\ keys_kept (auctionEndTimeMap (bs_repo s))
       (auctionEndTimeMap (bs_repo (run_schedule w sched s)))
  /\ auctionInterval (bs_repo (run_schedule w sched s)) = auctionInterval (bs_repo s).
Proof.
  revert s. induction sched as [|i sched IH]; intros s.
  - repeat split; apply keys_kept_refl.
  - unfold run_schedule in *. cbn [fold_left].
    destruct (IH (step_task_at w i s)) as (H1 & H2 & H3).
    destruct (step_task_at_grows i s) as (G1 & G2 & G3).
    repeat split; [by eapply keys_kept_trans|by eapply keys_kept_trans|congruence].
Qed.

End CacheGrowth.

(** X3.  [CreateBidBatch] never evicts: an auction with a status entry or an
    end-time entry before the batch still has it afterwards, whatever the
    schedule; and the configured auction duration is left as it was. *)
Theorem X3_batch_never_evicts (w : World) (sched : list nat) (n : nat)
    (bd : BidRepository) (bids : list bid_entity.Bid) (id : string) :
  let bd' := bs_repo (CreateBidBatch w sched n bd bids).1 in
  (is_Some (auctionStatusMap bd !! id) -> is_Some (auctionStatusMap bd' !! id))
  /\ (is_Some (auctionEndTimeMap bd !! id) -> is_Some (auctionEndTimeMap bd' !! id))
  /\ auctionInterval bd' = auctionInterval bd.
Proof.
  cbv zeta. unfold CreateBidBatch. cbn [fst].
  set (s0 := {| bs_repo := bd; bs_tasks := map TStart bids; bs_trace := [];
                bs_tick := n |}).
  destruct (run_schedule_grows w sched s0) as (H1 & H2 & H3).
  destruct (run_schedule_grows w (wait_schedule (length bids)) (run_schedule w sched s0))
    as (G1 & G2 & G3).
  repeat split.
  - intros Hid. by apply G1, H1.
  - intros Hid. by apply G2, H2.
  - by rewrite G3, H3.
Qed.

(** ** Lifting repository invariants through the loop *)

Section LoopInvariants.

Variable w : World.
Variable P : BidRepository -> Prop.

Hypothesis batch_keeps : forall sched n bd bids,
  P bd -> P (bs_repo (CreateBidBatch w sched n bd bids).1).

Lemma flush_keeps sched tag r :
  P (bid_usecase.repository r) ->
  P (bid_usecase.repository (bid_usecase.flush w sched tag r)).
Proof using batch_keeps.
  intros Hr. destruct (flush_fields w sched tag r) as (_ & _ & _ & _ & -> & _).
  by apply batch_keeps.
Qed.

Lemma loop_iter_keeps sched ev r :
  P (bid_usecase.repository r) ->
  P (bid_usecase.repository (bid_usecase.loop_iter w sched ev r)).
Proof using batch_keeps.
  intros Hr. unfold bid_usecase.loop_iter. destruct ev as [b| |].
  - destruct (_ <=? _); [|done].
    unfold bid_usecase.clear_and_reset. cbn [bid_usecase.repository].
    by apply flush_keeps.
  - destruct (_ <? _); [|done].
    unfold bid_usecase.do_return. cbn [bid_usecase.repository].
    by apply flush_keeps.
  - unfold bid_usecase.clear_and_reset. cbn [bid_usecase.repository].
    by apply flush_keeps.
Qed.

Lemma run_loop_keeps evs r :
  P (bid_usecase.repository r) ->
  P (bid_usecase.repository (bid_usecase.run_loop w evs r)).
Proof using batch_keeps.
  revert r. induction evs as [|[ev sched] evs IH]; intros r Hr; simpl; [done|].
  destruct (bid_usecase.returned r); [done|]. by apply IH, loop_iter_keeps.
Qed.

End LoopInvariants.

(** ** An end-time entry never comes without a status entry *)

Section CachePairing.

Variable w : World.

Lemma task_step_paired n bd t :
  keys_kept (auctionEndTimeMap bd) (auctionStatusMap bd) ->
  status_written bd t ->
  keys_kept (auctionEndTimeMap (task_step w n bd t).1.1)
    (auctionStatusMap (task_step w n bd t).1.1)
  /\ status_written (task_step w n bd t).1.1 (task_step w n bd t).1.2.
Proof.
  intros Hk Ht.
  destruct t as [b|b st|b [st|] [et|]|b a|b a|b msg|]; cbn [task_step];
    try (split; [done|by intros ? ? [=]]);
    try (destruct (FindAuctionById w n _) as [evs [a|e]]; cbn [fst snd];
         [destruct (negb _)|]; cbn [fst snd]; split; by (done || intros ? ? [=])).
  - destruct (_ || _); cbn [fst snd]; split; by (done || intros ? ? [=]).
  - cbn [fst snd auctionStatusMap auctionEndTimeMap]. split.
    + eapply keys_kept_trans; [exact Hk|apply keys_kept_insert].
    + intros b' a' [= <- <-]. cbn [auctionStatusMap].
      rewrite lookup_insert_eq. by eexists.
  - cbn [fst snd auctionStatusMap auctionEndTimeMap]. split; [|by intros ? ? [=]].
    intros id Hid. destruct (decide (bid_entity.AuctionId b = id)) as [<-|Hne].
    + by eapply Ht.
    + rewrite lookup_insert_ne in Hid by done. by apply Hk.
Qed.

Lemma step_task_at_paired i s : cache_paired s -> cache_paired (step_task_at w i s).
Proof.
  intros [Hk Ht]. unfold step_task_at.
  destruct (bs_tasks s !! i) as [t|] eqn:Hi; [|done].
  destruct (is_done t); [done|].
  assert (status_written (bs_repo s) t) as Hti by (by eapply Forall_lookup_1).
  pose proof (task_step_paired (bs_tick s) (bs_repo s) t Hk Hti) as [Hk' Ht'].
  pose proof (task_step_grows w (bs_tick s) (bs_repo s) t) as (Hg & _).
  destruct (task_step w (bs_tick s) (bs_repo s) t) as [[bd t'] evs].
  cbn [fst snd] in *. split; cbn [bs_repo bs_tasks]; [done|].
  apply Forall_insert; [|done].
  eapply Forall_impl; [exact Ht|].
  intros t0 H0 b a ->. by eapply Hg, H0.
Qed.

Lemma run_schedule_paired sched s : cache_paired s -> cache_paired (run_schedule w sched s).
Proof.
  revert s. induction sched as [|i sched IH]; intros s Hs; [done|].
  unfold run_schedule in *. cbn [fold_left]. by apply IH, step_task_at_paired.
Qed.

Lemma spawned_paired n bd bids :
  keys_kept (auctionEndTimeMap bd) (auctionStatusMap bd) ->
  cache_paired {| bs_repo := bd; bs_tasks := map TStart bids; bs_trace := [];
                  bs_tick := n |}.
Proof.
  intros Hk. split; [done|]. cbn [bs_tasks].
  apply Forall_map, Forall_forall. by intros b _ ? ? [=].
Qed.

Lemma CreateBidBatch_paired sched n bd bids :
  keys_kept (auctionEndTimeMap bd) (auctionStatusMap bd) ->
  keys_kept (auctionEndTimeMap (bs_repo (CreateBidBatch w sched n bd bids).1))
    (auctionStatusMap (bs_repo (CreateBidBatch w sched n bd bids).1)).
Proof.
  intros Hk. unfold CreateBidBatch. cbn [fst].
  by apply run_schedule_paired, run_schedule_paired, spawned_paired.
Qed.

End CachePairing.

(** X4.  From the empty caches of [NewBidRepository], after any run of the
    loop and at every point of every interleaving of a batch started there,
    an auction that has an end-time entry has a status entry: the status is
    written first and nothing is ever removed.  A cache hit is therefore
    decided by the end-time entry alone. *)
Theorem X4_end_time_entry_implies_status_entry (w : World)
    (evs : list (bid_usecase.Ready * list nat)) (n : nat) (maxBatchSize : Z)
    (maxSizeInterval auctionInterval : time.Duration)
    (sched : list nat) (bids : list bid_entity.Bid) (id : string) :
  let r := bid_usecase.run_loop w evs
             (bid_usecase.NewRoutine w n maxBatchSize maxSizeInterval
                (NewBidRepository auctionInterval)) in
  let mid := run_schedule w sched
               {| bs_repo := bid_usecase.repository r;
                  bs_tasks := map TStart bids;
                  bs_trace := [];
                  bs_tick := bid_usecase.tick r |} in
  (is_Some (auctionEndTimeMap (bid_usecase.repository r) !! id) ->
   is_Some (auctionStatusMap (bid_usecase.repository r) !! id))
  /\ (is_Some (auctionEndTimeMap (bs_repo mid) !! id) ->
      is_Some (auctionStatusMap (bs_repo mid) !! id)).
Proof.
  cbv zeta.
  set (r := bid_usecase.run_loop w evs _).
  assert (keys_kept (auctionEndTimeMap (bid_usecase.repository r))
            (auctionStatusMap (bid_usecase.repository r))) as Hr.
  { subst r.
    apply (run_loop_keeps w
             (fun bd => keys_kept (auctionEndTimeMap bd) (auctionStatusMap bd))).
    - intros. by apply CreateBidBatch_paired.
    - cbn. intros i [x Hx]. by rewrite lookup_empty in Hx. }
  split; [apply Hr|].
  destruct (run_schedule_paired w sched _
              (spawned_paired (bid_usecase.tick r) _ bids Hr)) as [Hm _].
  apply Hm.
Qed.

(** * Further properties of the batching goroutine *)

Section LoopAccounting.

Variable w : World.

Lemma handed_over_app tr1 tr2 :
  handed_over (tr1 ++ tr2) = handed_over tr1 ++ handed_over tr2.
Proof. unfold handed_over. apply flat_map_app. Qed.

Lemma handed_over_batch_trace sched n bd bids :
  handed_over (bs_trace (CreateBidBatch w sched n bd bids).1) = [].
Proof.
  pose proof (CreateBidBatch_of_batch w sched n bd bids) as H.
  induction H as [|e tr He _ IH]; [done|].
  unfold handed_over in *. cbn [flat_map]. rewrite IH.
  by destruct e.
Qed.

Lemma batches_within_batch_trace bound sched n bd bids :
  batches_within bound (bs_trace (CreateBidBatch w sched n bd bids).1).
Proof.
  eapply Forall_impl; [apply CreateBidBatch_of_batch|].
  by intros [].
Qed.

Lemma loop_iter_maxBatchSize sched ev r :
  bid_usecase.maxBatchSize (bid_usecase.loop_iter w sched ev r)
  = bid_usecase.maxBatchSize r.
Proof.
  unfold bid_usecase.loop_iter. destruct ev as [b| |].
  - destruct (_ <=? _); [|done].
    unfold bid_usecase.clear_and_reset. cbn [bid_usecase.maxBatchSize].
    by destruct (flush_fields w sched "[B] error trying to create bid batch on goroutine"
                   (bid_usecase.append_bid b r)) as (-> & _).
  - destruct (_ <? _); [|done].
    unfold bid_usecase.do_return. cbn [bid_usecase.maxBatchSize].
    by destruct (flush_fields w sched "[A] error trying to create bid batch on goroutine" r)
      as (-> & _).
  - unfold bid_usecase.clear_and_reset. cbn [bid_usecase.maxBatchSize].
    by destruct (flush_fields w sched "[C] error trying to create bid batch on goroutine" r)
      as (-> & _).
Qed.

(** What the drain branch leaves. *)
Lemma loop_iter_closed_fields sched r :
  let r' := bid_usecase.loop_iter w sched bid_usecase.RecvClosed r in
  bid_usecase.returned r' = true
  /\ handed_over (bid_usecase.trace r')
     = handed_over (bid_usecase.trace r) ++ bid_usecase.bidBatch r
  /\ (forall bound, Z.of_nat (length (bid_usecase.bidBatch r)) <= bound ->
        batches_within bound (bid_usecase.trace r) ->
        batches_within bound (bid_usecase.trace r')).
Proof.
  cbv zeta. unfold bid_usecase.loop_iter.
  destruct (bid_usecase.bidBatch r) as [|b l] eqn:Hb; cbn [length].
  - cbn [Z.of_nat Z.ltb Z.compare bid_usecase.do_return bid_usecase.returned
         bid_usecase.trace].
    rewrite app_nil_r. split; [done|]. split; [done|]. by intros bound _ Hw.
  - replace (0 <? Z.of_nat (S (length l))) with true by (symmetry; apply Z.ltb_lt; lia).
    unfold bid_usecase.do_return. cbn [bid_usecase.returned bid_usecase.trace].
    destruct (flush_fields w sched "[A] error trying to create bid batch on goroutine" r)
      as (_ & _ & _ & _ & _ & Ht & _).
    rewrite Ht, Hb. split; [done|]. split.
    + rewrite handed_over_app. cbn [handed_over flat_map].
      fold (handed_over (bs_trace (CreateBidBatch w sched (bid_usecase.tick r)
                                     (bid_usecase.repository r) (b :: l)).1)).
      by rewrite handed_over_batch_trace, app_nil_r.
    + intros bound Hle Hw. apply Forall_app. split; [done|].
      constructor; [done|]. apply batches_within_batch_trace.
Qed.

Lemma loop_iter_accounting sched ev r :
  bid_usecase.returned r = false ->
  let r' := bid_usecase.loop_iter w sched ev r in
  handed_over (bid_usecase.trace r') ++ pending r'
  = handed_over (bid_usecase.trace r) ++ bid_usecase.bidBatch r
    ++ match ev with bid_usecase.RecvBid b => [b] | _ => [] end.
Proof.
  intros Hret. cbv zeta. destruct ev as [b| |].
  - unfold pending. rewrite loop_iter_returned_item, Hret.
    pose proof (loop_iter_item_fields w sched b r) as H. cbv zeta in H.
    destruct (_ <=? _).
    + destruct H as (-> & -> & _). rewrite handed_over_app. cbn [handed_over flat_map].
      fold (handed_over (bs_trace (CreateBidBatch w sched (bid_usecase.tick r)
                                     (bid_usecase.repository r)
                                     (bid_usecase.bidBatch r ++ [b])).1)).
      by rewrite handed_over_batch_trace, !app_nil_r.
    + by destruct H as (-> & -> & _).
  - destruct (loop_iter_closed_fields sched r) as (Hr & Hh & _).
    unfold pending. by rewrite Hr, Hh, !app_nil_r.
  - unfold pending. rewrite loop_iter_returned_timer, Hret.
    destruct (loop_iter_timer_fields w sched r) as (-> & -> & _).
    rewrite handed_over_app. cbn [handed_over flat_map].
    fold (handed_over (bs_trace (CreateBidBatch w sched (bid_usecase.tick r)
                                   (bid_usecase.repository r) (bid_usecase.bidBatch r)).1)).
    by rewrite handed_over_batch_trace, !app_nil_r.
Qed.

Lemma run_loop_accounting evs r :
  bid_usecase.returned r = false ->
  handed_over (bid_usecase.trace (bid_usecase.run_loop w evs r))
    ++ pending (bid_usecase.run_loop w evs r)
  = handed_over (bid_usecase.trace r) ++ bid_usecase.bidBatch r ++ received evs.
Proof.
  revert r. induction evs as [|[ev sched] evs IH]; intros r Hret.
  - cbn [bid_usecase.run_loop received]. unfold pending. by rewrite Hret, app_nil_r.
  - cbn [bid_usecase.run_loop]. rewrite Hret.
    pose proof (loop_iter_accounting sched ev r Hret) as Hstep. cbv zeta in Hstep.
    destruct ev as [b| |]; cbn [received].
    + rewrite IH by (by rewrite loop_iter_returned_item).
      unfold pending in Hstep. rewrite loop_iter_returned_item, Hret in Hstep.
      rewrite app_assoc, Hstep. by rewrite <- !app_assoc.
    + destruct (loop_iter_closed_fields sched r) as (Hr & _).
      destruct evs as [|[ev' sched'] evs]; cbn [bid_usecase.run_loop];
        rewrite ?Hr; exact Hstep.
    + rewrite IH by (by rewrite loop_iter_returned_timer).
      unfold pending in Hstep. rewrite loop_iter_returned_timer, Hret in Hstep.
      rewrite app_assoc, Hstep. by rewrite <- !app_assoc.
Qed.

Lemma loop_iter_within sched ev r :
  let bound := Z.max 1 (bid_usecase.maxBatchSize r) in
  let r' := bid_usecase.loop_iter w sched ev r in
  Z.of_nat (length (bid_usecase.bidBatch r)) < bound ->
  batches_within bound (bid_usecase.trace r) ->
  Z.of_nat (length (bid_usecase.bidBatch r')) < bound
  /\ batches_within bound (bid_usecase.trace r').
Proof.
  cbv zeta. intros Hlen Hw. destruct ev as [b| |].
  - pose proof (loop_iter_item_fields w sched b r) as H. cbv zeta in H.
    destruct (Z.leb_spec (bid_usecase.maxBatchSize r)
                (Z.of_nat (length (bid_usecase.bidBatch r ++ [b])))) as [Hle|Hgt].
    + destruct H as (-> & -> & _). split; [cbn; lia|].
      apply Forall_app. split; [done|]. constructor.
      * rewrite length_app. cbn [length]. lia.
      * apply batches_within_batch_trace.
    + destruct H as (-> & -> & _). split; [lia|done].
  - destruct (loop_iter_closed_fields sched r) as (_ & _ & Hb).
    split.
    + unfold bid_usecase.loop_iter. destruct (_ <? _); [|done].
      unfold bid_usecase.do_return. cbn [bid_usecase.bidBatch].
      by destruct (flush_fields w sched "[A] error trying to create bid batch on goroutine"
                     r) as (_ & _ & _ & -> & _).
    + apply Hb; [lia|done].
  - destruct (loop_iter_timer_fields w sched r) as (-> & -> & _).
    split; [cbn; lia|].
    apply Forall_app. split; [done|]. constructor; [lia|].
    apply batches_within_batch_trace.
Qed.

Lemma run_loop_within evs r :
  let bound := Z.max 1 (bid_usecase.maxBatchSize r) in
  Z.of_nat (length (bid_usecase.bidBatch r)) < bound ->
  batches_within bound (bid_usecase.trace r) ->
  Z.of_nat (length (bid_usecase.bidBatch (bid_usecase.run_loop w evs r))) < bound
  /\ batches_within bound (bid_usecase.trace (bid_usecase.run_loop w evs r)).
Proof.
  cbv zeta. revert r. induction evs as [|[ev sched] evs IH]; intros r Hlen Hw;
    cbn [bid_usecase.run_loop]; [done|].
  destruct (bid_usecase.returned r); [done|].
  destruct (loop_iter_within sched ev r Hlen Hw) as [Hlen' Hw'].
  rewrite <- (loop_iter_maxBatchSize sched ev r).
  apply IH; by rewrite loop_iter_maxBatchSize.
Qed.

End LoopAccounting.

(** X5.  The loop neither loses nor repeats nor reorders a bid: after any run
    from a fresh routine, the bids handed to [CreateBidBatch] so far,
    followed by those still waiting in [bidBatch], are exactly the bids
    received, in the order received. *)
Theorem X5_bids_handed_over_once_in_order (w : World)
    (evs : list (bid_usecase.Ready * list nat)) (n : nat) (maxBatchSize : Z)
    (maxSizeInterval : time.Duration) (bd : BidRepository) :
  let r := bid_usecase.run_loop w evs
             (bid_usecase.NewRoutine w n maxBatchSize maxSizeInterval bd) in
  handed_over (bid_usecase.trace r) ++ pending r = received evs.
Proof.
  cbv zeta. by rewrite run_loop_accounting.
Qed.

(** X6.  No batch handed to [CreateBidBatch] holds more than [maxBatchSize]
    bids, and fewer than that wait in [bidBatch] between two iterations; with
    a [maxBatchSize] below 1 the bound is 1: every bid is handed over alone
    as soon as it is received. *)
Theorem X6_batches_within_maxBatchSize (w : World)
    (evs : list (bid_usecase.Ready * list nat)) (n : nat) (maxBatchSize : Z)
    (maxSizeInterval : time.Duration) (bd : BidRepository) :
  let r := bid_usecase.run_loop w evs
             (bid_usecase.NewRoutine w n maxBatchSize maxSizeInterval bd) in
  Z.of_nat (length (bid_usecase.bidBatch r)) < Z.max 1 maxBatchSize
  /\ Forall (fun e => match e with
                      | EvCreateBidBatch batch =>
                          Z.of_nat (length batch) <= Z.max 1 maxBatchSize
                      | _ => True
                      end) (bid_usecase.trace r).
Proof.
  cbv zeta.
  apply (run_loop_within w evs
           (bid_usecase.NewRoutine w n maxBatchSize maxSizeInterval bd)).
  - cbn. lia.
  - constructor.
Qed.

(** * Stored documents *)

Lemma to_Unix_Unix (sec : Z) : time.to_Unix (time.Unix sec) = sec.
Proof. unfold time.to_Unix, time.Unix, time.Second. by rewrite Z.div_mul. Qed.

Lemma Unix_to_Unix_bounds (t : time.Time) :
  time.Unix (time.to_Unix t) <= t < time.Unix (time.to_Unix t) + time.Second.
Proof.
  unfold time.to_Unix, time.Unix, time.Second.
  pose proof (Z.div_mod t 1000000000 ltac:(lia)).
  pose proof (Z.mod_pos_bound t 1000000000 ltac:(lia)). lia.
Qed.

(** X7.  Storing a bid and reading it back keeps its id, bidder, auction and
    amount and rounds its submission time down to the whole second: the time
    read back is at most the original and less than one second before it.
    A stored document read and stored again is unchanged. *)
Theorem X7_bid_round_trip (b : bid_entity.Bid) (doc : bid_doc.BidEntityMongo) :
  let b' := fromBidEntityMongo (toBidEntityMongo b) in
  bid_entity.Id b' = bid_entity.Id b
  /\ bid_entity.UserId b' = bid_entity.UserId b
  /\ bid_entity.AuctionId b' = bid_entity.AuctionId b
  /\ bid_entity.Amount b' = bid_entity.Amount b
  /\ bid_entity.Timestamp b' <= bid_entity.Timestamp b
       < bid_entity.Timestamp b' + time.Second
  /\ toBidEntityMongo b' = toBidEntityMongo b
  /\ toBidEntityMongo (fromBidEntityMongo doc) = doc.
Proof.
  cbv zeta. repeat split; try apply Unix_to_Unix_bounds.
  - unfold toBidEntityMongo, fromBidEntityMongo.
    cbn [bid_entity.Id bid_entity.UserId bid_entity.AuctionId bid_entity.Amount
         bid_entity.Timestamp bid_doc.Id bid_doc.UserId bid_doc.AuctionId
         bid_doc.Amount bid_doc.Timestamp].
    by rewrite to_Unix_Unix.
  - destruct doc. unfold toBidEntityMongo, fromBidEntityMongo.
    cbn [bid_entity.Id bid_entity.UserId bid_entity.AuctionId bid_entity.Amount
         bid_entity.Timestamp bid_doc.Id bid_doc.UserId bid_doc.AuctionId
         bid_doc.Amount bid_doc.Timestamp].
    by rewrite to_Unix_Unix.
Qed.

(** X8.  An auction that [CreateAuction] stored and [FindAuctionById] reads
    back has every field as created, the status included, except the
    creation time, which is rounded down to the whole second. *)
Theorem X8_auction_round_trip (w : World) (n : nat) (armed_at : time.Time)
    (interval : option time.Duration) (a : auction_entity.Auction) :
  auctions_FindOne w n (auction_entity.Id a)
    = Some (auction_repo.CreateAuction true armed_at interval a).1.1 ->
  exists a',
    (FindAuctionById w n (auction_entity.Id a)).2 = inl a'
    /\ auction_entity.Id a' = auction_entity.Id a
    /\ auction_entity.ProductName a' = auction_entity.ProductName a
    /\ auction_entity.Category a' = auction_entity.Category a
    /\ auction_entity.Description a' = auction_entity.Description a
    /\ auction_entity.Condition a' = auction_entity.Condition a
    /\ auction_entity.Status a' = auction_entity.Status a
    /\ auction_entity.Timestamp a' <= auction_entity.Timestamp a
         < auction_entity.Timestamp a' + time.Second.
Proof.
  intros Hfind. unfold FindAuctionById. rewrite Hfind.
  eexists. split; [reflexivity|]. cbn. repeat split; apply Unix_to_Unix_bounds.
Qed.

(** X8 in the scenario: X as created, stored and read back. *)
Lemma X8_auction_round_trip_witness :
  exists a',
    (FindAuctionById scenario.w0 0 scenario.auctionX).2 = inl a'
    /\ auction_entity.Status a' = auction_entity.Active
    /\ auction_entity.Timestamp a' = time.Unix 1700000000.
Proof.
  destruct (X8_auction_round_trip scenario.w0 0 0 None
              (fromAuctionEntityMongo scenario.docX) eq_refl)
    as (a' & H1 & _ & _ & _ & _ & _ & H7 & _).
  exists a'. split; [exact H1|]. split; [exact H7|].
  cbv in H1. by injection H1 as <-.
Defined.

(** * Auction rules *)

(** X9.  [Validate] accepts an auction exactly when its product name has at
    least 2 bytes, its category at least 3, and either its description has
    more than 10 bytes or its condition is New, Used or Refurbished: a
    condition outside the three is accepted with a long enough description,
    and a short description with a known condition.  A refusal is always the
    bad-request error "invalid data"; an auction [CreateAuctionBody] returns
    is Active and carries the id, time and fields given. *)
Theorem X9_auction_validation (au : auction_entity.Auction) (newId : string)
    (now : time.Time) (productName category description : string)
    (condition : auction_entity.ProductCondition) :
  (auction_rules.Validate au = None <->
     2 <= auction_rules.len (auction_entity.ProductName au)
     /\ 3 <= auction_rules.len (auction_entity.Category au)
     /\ (11 <= auction_rules.len (auction_entity.Description au)
         \/ auction_entity.Condition au = auction_rules.New
         \/ auction_entity.Condition au = auction_rules.Used
         \/ auction_entity.Condition au = auction_rules.Refurbished))
  /\ (auction_rules.Validate au = None
      \/ auction_rules.Validate au = Some (NewBadRequestError "invalid data"))
  /\ (forall a,
        auction_rules.CreateAuctionBody newId now productName category description
          condition = inl a ->
        auction_rules.Validate a = None
        /\ a = {| auction_entity.Id := newId;
                  auction_entity.ProductName := productName;
                  auction_entity.Category := category;
                  auction_entity.Description := description;
                  auction_entity.Condition := condition;
                  auction_entity.Status := auction_entity.Active;
                  auction_entity.Timestamp := now |}).
Proof.
  split; [|split].
  - unfold auction_rules.Validate, auction_rules.New, auction_rules.Used,
      auction_rules.Refurbished.
    destruct (Z.leb_spec (auction_rules.len (auction_entity.ProductName au)) 1);
      cbn [orb]; [split; [done|lia]|].
    destruct (Z.leb_spec (auction_rules.len (auction_entity.Category au)) 2);
      cbn [orb]; [split; [done|lia]|].
    destruct (Z.leb_spec (auction_rules.len (auction_entity.Description au)) 10);
      cbn [andb]; [|split; [lia|done]].
    destruct (Z.eqb_spec (auction_entity.Condition au) 0); cbn [negb andb];
      [split; [lia|done]|].
    destruct (Z.eqb_spec (auction_entity.Condition au) 1); cbn [negb andb];
      [split; [lia|done]|].
    destruct (Z.eqb_spec (auction_entity.Condition au) 2); cbn [negb andb];
      [split; [lia|done]|].
    split; [done|lia].
  - unfold auction_rules.Validate. destruct (_ || _); auto.
  - intros a. unfold auction_rules.CreateAuctionBody.
    destruct (auction_rules.Validate _) eqn:Hv; [done|].
    by intros [= <-].
Qed.

(** * The cached end time and the closing job *)



(** * HTTP answers *)

(** X11.  [ConvertErrors] keeps the message of the internal error and adds
    no causes; it answers 400 exactly for the kind ["bad_request"], 404
    exactly for ["not_found"] and 500 for every other kind.  So the three
    constructors of [internal_error] map to 400, 404 and 500. *)
Theorem X11_error_kinds_to_status_codes (e : InternalError) (m : string) :
  let r := rest_err.ConvertErrors e in
  rest_err.Message r = internal_error.Message e
  /\ rest_err.Causes_ r = []
  /\ (rest_err.Code r = 400 <-> internal_error.Err e = "bad_request")
  /\ (rest_err.Code r = 404 <-> internal_error.Err e = "not_found")
  /\ (rest_err.Code r = 500 <->
        internal_error.Err e <> "bad_request" /\ internal_error.Err e <> "not_found")
  /\ rest_err.ConvertErrors (NewBadRequestError m) = rest_err.NewBadRequestError m []
  /\ rest_err.ConvertErrors (NewNotFoundError m) = rest_err.NewNotFoundError m
  /\ rest_err.ConvertErrors (NewInternalServerError m)
     = rest_err.NewInternalServerError m.
Proof.
  cbv zeta. unfold rest_err.ConvertErrors.
  destruct (String.eqb_spec (internal_error.Err e) "bad_request") as [Hb|Hb].
  { rewrite Hb. cbn. repeat split; try done; intros; try lia; by destruct_and?. }
  destruct (String.eqb_spec (internal_error.Err e) "not_found") as [Hn|Hn].
  { rewrite Hn. cbn. repeat split; try done; intros; try lia; by destruct_and?. }
  cbn. repeat split; try done; intros; lia.
Qed.

Lemma ValidateErr_bad_request v r :
  validation.ValidateErr v = Some r ->
  rest_err.Code r = 400 /\ rest_err.Err r = "bad_request".
Proof.
  unfold validation.ValidateErr.
  destruct (validation.as_UnmarshalTypeError v); [by intros [= <-]|].
  destruct (validation.as_ValidationErrors v); [|by intros [= <-]].
  destruct (validation.assert_ValidationErrors v); [by intros [= <-]|done].
Qed.

(** X12.  The POST /bid handler.  It answers 201 with no body exactly when
    the body binds and the bid passes [Validate], and then it sends exactly
    that bid on the channel; every other answer is a 400 "bad_request" with
    nothing sent.  It never answers 404 or 500, whatever the batch processor
    later does with the bid.  It panics only on a binding error in which
    [errors.As] finds validation errors that the direct type assertion does
    not. *)
Theorem X12_post_bid_answers (uuid_Validate : string -> bool) (newId : string)
    (now : time.Time) (bound : bid_usecase.BidInputDTO + validation.ErrView) :
  match controller.CreateBid uuid_Validate newId now bound with
  | None =>
      exists v, bound = inr v
        /\ validation.as_UnmarshalTypeError v = false
        /\ validation.as_ValidationErrors v = true
        /\ validation.assert_ValidationErrors v = None
  | Some (resp, ops) =>
      match bound with
      | inl dto =>
          if uuid_Validate (bid_usecase.UserId dto)
             && uuid_Validate (bid_usecase.AuctionId dto)
             && negb (bid_usecase.Amount dto <=? 0)%float
          then resp = controller.JSON 201 controller.NoBody
               /\ ops = [bid_usecase.Send
                           {| bid_entity.Id := newId;
                              bid_entity.UserId := bid_usecase.UserId dto;
                              bid_entity.AuctionId := bid_usecase.AuctionId dto;
                              bid_entity.Amount := bid_usecase.Amount dto;
                              bid_entity.Timestamp := now |}]
          else exists msg,
                 resp = controller.error_response (rest_err.NewBadRequestError msg [])
                 /\ controller.StatusCode resp = 400 /\ ops = []
      | inr v =>
          exists r, resp = controller.error_response r
            /\ controller.StatusCode resp = 400
            /\ rest_err.Err r = "bad_request" /\ ops = []
      end
  end.
Proof.
  unfold controller.CreateBid. destruct bound as [dto|v].
  - unfold bid_usecase.CreateBid, bid_entity.CreateBid, bid_entity.Validate.
    cbn [bid_entity.UserId bid_entity.AuctionId bid_entity.Amount].
    destruct (uuid_Validate (bid_usecase.UserId dto)); cbn [negb andb];
      [|by eexists].
    destruct (uuid_Validate (bid_usecase.AuctionId dto)); cbn [negb andb];
      [|by eexists].
    destruct (bid_usecase.Amount dto <=? 0)%float; cbn [negb]; [by eexists|done].
  - destruct (validation.ValidateErr v) as [r|] eqn:Hv.
    + destruct (ValidateErr_bad_request v r Hv) as [Hc He].
      exists r. by repeat split.
    + exists v. split; [done|]. unfold validation.ValidateErr in Hv.
      destruct (validation.as_UnmarshalTypeError v); [done|].
      destruct (validation.as_ValidationErrors v); [|done].
      by destruct (validation.assert_ValidationErrors v).
Qed.

(** X13.  The GET /bid/:auctionId handler.  A parameter that is no UUID gives
    400 with the cause on field "auctionId" and no query; a failed query or
    decoding gives 500; otherwise the answer is 200 with one record per stored
    bid, in the stored order, each with the stored fields and the stored
    second as its time. *)
Theorem X13_get_bids_answers (uuid_Validate : string -> bool) (auctionId : string)
    (res : auction_repo.CursorResult bid_doc.BidEntityMongo) :
  let resp := controller.FindBidByAuctionId uuid_Validate auctionId res in
  if negb (uuid_Validate auctionId) then
    resp = controller.invalid_uuid "auctionId" /\ controller.StatusCode resp = 400
  else
    match res with
    | auction_repo.Docs docs =>
        resp = controller.JSON 200
                 (controller.JBids
                    (map (fun d =>
                            {| bid_queries.Id := bid_doc.Id d;
                               bid_queries.UserId := bid_doc.UserId d;
                               bid_queries.AuctionId := bid_doc.AuctionId d;
                               bid_queries.Amount := bid_doc.Amount d;
                               bid_queries.Timestamp := time.Unix (bid_doc.Timestamp d) |})
                       docs))
    | _ =>
        controller.StatusCode resp = 500
        /\ exists msg, controller.ResponseBody resp
                       = controller.JErr (rest_err.NewInternalServerError msg)
    end.
Proof.
  cbv zeta. unfold controller.FindBidByAuctionId.
  destruct (uuid_Validate auctionId); cbn [negb]; [|done].
  destruct res as [| |docs]; cbn; try (split; [done|by eexists]).
  by rewrite map_map.
Qed.

(** X14.  The GET /user/:userId handler.  400 for a parameter that is no
    UUID; 404 when the query finds no document; 500 on any other failure of
    the query; otherwise 200 with the id and name of the stored document. *)
Theorem X14_get_user_answers (uuid_Validate : string -> bool) (userId : string)
    (res : user.FindOneResult) :
  let resp := controller.FindUserById uuid_Validate userId res in
  if negb (uuid_Validate userId) then
    resp = controller.invalid_uuid "userId" /\ controller.StatusCode resp = 400
  else
    match res with
    | user.ErrNoDocuments =>
        controller.StatusCode resp = 404
        /\ exists msg, controller.ResponseBody resp
                       = controller.JErr (rest_err.NewNotFoundError msg)
    | user.OtherError =>
        controller.StatusCode resp = 500
        /\ exists msg, controller.ResponseBody resp
                       = controller.JErr (rest_err.NewInternalServerError msg)
    | user.Decoded doc =>
        resp = controller.JSON 200
                 (controller.JUser {| user.out_Id := user.doc_Id doc;
                                      user.out_Name := user.doc_Name doc |})
    end.
Proof.
  cbv zeta. unfold controller.FindUserById.
  destruct (uuid_Validate userId); cbn [negb]; [|done].
  destruct res as [doc| |]; cbn; try done; split; by (done || eexists).
Qed.

(** X15.  The POST /user handler.  400 "Invalid JSON body" when the body does
    not bind, 500 when the insert fails, otherwise 201 with the generated id
    and the name as given: the name is not checked any further. *)
Theorem X15_post_user_answers (bound : option string) (newId : string)
    (insert_ok : bool) :
  let resp := controller.CreateUser bound newId insert_ok in
  match bound with
  | None =>
      resp = controller.error_response
               (rest_err.NewBadRequestError "Invalid JSON body" [])
      /\ controller.StatusCode resp = 400
  | Some name =>
      if insert_ok then
        resp = controller.JSON 201
                 (controller.JUser {| user.out_Id := newId; user.out_Name := name |})
      else
        resp = controller.error_response
                 (rest_err.NewInternalServerError "error trying to create user")
        /\ controller.StatusCode resp = 500
  end.
Proof. cbv zeta. destruct bound as [name|]; [|done]. by destruct insert_ok. Qed.

(** X16.  The GET /auctions/:auctionId handler answers 400 for a parameter
    that is no UUID, 404 whenever the lookup fails, for whatever reason, and
    200 with the stored auction otherwise; it never answers 500. *)
Theorem X16_get_auction_answers (uuid_Validate : string -> bool)
    (toProductCondition toAuctionStatus : Z -> Z) (w : World) (n : nat)
    (auctionId : string) :
  let resp := controller.FindAuctionById uuid_Validate toProductCondition
                toAuctionStatus w n auctionId in
  controller.StatusCode resp <> 500
  /\ if negb (uuid_Validate auctionId) then
       resp = controller.invalid_uuid "auctionId" /\ controller.StatusCode resp = 400
     else
       match auctions_FindOne w n auctionId with
       | None =>
           controller.StatusCode resp = 404
           /\ exists msg, controller.ResponseBody resp
                          = controller.JErr (rest_err.NewNotFoundError msg)
       | Some m =>
           resp = controller.JSON 200
                    (controller.JAuction
                       {| auction_usecase.a_Id := auction.Id m;
                          auction_usecase.a_ProductName := auction.ProductName m;
                          auction_usecase.a_Category := auction.Category m;
                          auction_usecase.a_Description := auction.Description m;
                          auction_usecase.a_Condition :=
                            toProductCondition (auction.Condition m);
                          auction_usecase.a_Status := toAuctionStatus (auction.Status m);
                          auction_usecase.a_Timestamp :=
                            time.Unix (auction.Timestamp m) |})
       end.
Proof.
  cbv zeta. unfold controller.FindAuctionById, FindAuctionById.
  destruct (uuid_Validate auctionId); cbn [negb]; [|done].
  destruct (auctions_FindOne w n auctionId) as [m|]; cbn; [done|].
  split; [done|]. split; [done|]. by eexists.
Qed.

(** X17.  The GET /auctions/winner/:auctionId handler answers 200 only when
    both the auction and a winning bid are found.  For an auction that
    exists but has no bid to be found the use case builds the auction record
    and returns it together with the error; the handler sends the error
    alone: 404. *)
Theorem X17_winner_of_auction_without_bids (uuid_Validate : string -> bool)
    (toProductCondition toAuctionStatus : Z -> Z) (w : World) (n : nat)
    (auctionId : string) (bidRes : option bid_doc.BidEntityMongo) :
  let resp := controller.FindWinningBidByAuctionId uuid_Validate toProductCondition
                toAuctionStatus w n auctionId bidRes in
  let answer := auction_usecase.FindWinningBidByAuctionId toProductCondition
                  toAuctionStatus (FindAuctionById w n auctionId).2
                  (bid_repo.FindWinningBidByAuctionId bidRes auctionId).2 in
  (controller.StatusCode resp = 200 <->
     uuid_Validate auctionId = true
     /\ is_Some (auctions_FindOne w n auctionId) /\ is_Some bidRes)
  /\ (uuid_Validate auctionId = true ->
      is_Some (auctions_FindOne w n auctionId) ->
      bidRes = None ->
      controller.StatusCode resp = 404
      /\ (exists msg, controller.ResponseBody resp
                      = controller.JErr (rest_err.NewNotFoundError msg))
      /\ exists info, answer.1 = Some info /\ auction_usecase.Bid info = None).
Proof.
  cbv zeta. unfold controller.FindWinningBidByAuctionId, FindAuctionById.
  destruct (uuid_Validate auctionId); cbn [negb].
  2: { split; [|done]. cbn. split; [intros H; by compute in H|]. by intros ([=] & _). }
  destruct (auctions_FindOne w n auctionId) as [m|]; cbn.
  2: { split; [|by intros _ [? [=]]].
       split; [intros H; by compute in H|]. by intros (_ & [? [=]] & _). }
  destruct bidRes as [d|]; cbn.
  - split; [|done]. split; [by repeat split|done].
  - split.
    + split; [intros H; by compute in H|]. by intros (_ & _ & [? [=]]).
    + intros _ _ _. split; [done|]. split; by eexists.
Qed.

Lemma X17_winner_of_auction_without_bids_witness :
  controller.StatusCode
    (controller.FindWinningBidByAuctionId scenario.canonical_uuid id id scenario.w0 0
       scenario.auctionX None) = 404.
Proof.
  destruct (X17_winner_of_auction_without_bids scenario.canonical_uuid id id
              scenario.w0 0 scenario.auctionX None) as [_ H].
  destruct (H eq_refl (ex_intro _ scenario.docX eq_refl) eq_refl) as [Hc _].
  exact Hc.
Defined.

(** X18.  [FindAllAuctions] filters by status only when the status is not 0:
    asked for Active auctions (status 0) it puts no status in the filter and
    runs the very query it runs for any other request with the same category
    and name.  A category or a product name enters the filter exactly when
    it is not empty, the name as a case-insensitive pattern. *)
Theorem X18_active_status_is_not_filtered
    (find : gmap string auction_repo.FilterValue
            -> auction_repo.CursorResult auction.AuctionEntityMongo)
    (status : auction_entity.AuctionStatus) (category productName : string) :
  let filter := auction_repo.FindAllAuctions_filter status category productName in
  filter !! "status" = (if status =? 0 then None else Some (auction_repo.FStatus status))
  /\ filter !! "category"
     = (if String.eqb category EmptyString then None
        else Some (auction_repo.FString category))
  /\ filter !! "product_name"
     = (if String.eqb productName EmptyString then None
        else Some (auction_repo.FRegex productName "i"))
  /\ (forall key, is_Some (filter !! key) ->
        key = "status" \/ key = "category" \/ key = "product_name")
  /\ auction_repo.FindAllAuctions find auction_entity.Active category productName
     = match find (auction_repo.FindAllAuctions_filter 0 category productName) with
       | auction_repo.Docs docs => ([], inl (map fromAuctionEntityMongo docs))
       | auction_repo.FindFailed =>
           ([EvLog "error trying to find auctions"],
            inr (NewInternalServerError "error trying to find auctions"))
       | auction_repo.AllFailed =>
           ([EvLog "error trying to decode auctions"],
            inr (NewInternalServerError "error trying to decode auctions"))
       end
  /\ auction_repo.FindAllAuctions_filter auction_entity.Active category productName
       !! "status" = None.
Proof.
  cbv zeta.
  assert (forall st, auction_repo.FindAllAuctions_filter st category productName
                       !! "status"
                     = (if st =? 0 then None else Some (auction_repo.FStatus st))) as Hst.
  { intros st. unfold auction_repo.FindAllAuctions_filter.
    destruct (st =? 0); destruct (String.eqb category EmptyString);
      destruct (String.eqb productName EmptyString); by simplify_map_eq. }
  split; [apply Hst|]. split; [|split; [|split; [|split]]].
  - unfold auction_repo.FindAllAuctions_filter.
    destruct (status =? 0); destruct (String.eqb category EmptyString);
      destruct (String.eqb productName EmptyString); by simplify_map_eq.
  - unfold auction_repo.FindAllAuctions_filter.
    destruct (status =? 0); destruct (String.eqb category EmptyString);
      destruct (String.eqb productName EmptyString); by simplify_map_eq.
  - intros key [x Hx]. unfold auction_repo.FindAllAuctions_filter in Hx.
    destruct (status =? 0); destruct (String.eqb category EmptyString);
      destruct (String.eqb productName EmptyString);
      repeat (apply lookup_insert_Some in Hx as [[<- _]|[_ Hx]]; [by auto|]);
      by rewrite lookup_empty in Hx.
  - done.
  - apply (Hst auction_entity.Active).
Qed.

(** X19.  The GET /auctions handler requires a numeric [status] parameter:
    when [strconv.Atoi] fails on it, an absent parameter included, the
    answer is 400 and no query is made.  A failed query gives 500.  When
    the query finds nothing the body is the empty array, otherwise one record
    per stored auction in the stored order. *)
Theorem X19_get_auctions_answers (toProductCondition toAuctionStatus : Z -> Z)
    (ofStatusNumber : Z -> auction_entity.AuctionStatus)
    (find : gmap string auction_repo.FilterValue
            -> auction_repo.CursorResult auction.AuctionEntityMongo)
    (statusNumber : option Z) (category productName : string) :
  let resp := controller.FindAllAuctions toProductCondition toAuctionStatus
                ofStatusNumber find statusNumber category productName in
  match statusNumber with
  | None =>
      controller.StatusCode resp = 400
      /\ resp = controller.error_response
                  (rest_err.NewBadRequestError
                     "Erro trying to validate auction status param" [])
  | Some k =>
      match find (auction_repo.FindAllAuctions_filter (ofStatusNumber k) category
                    productName) with
      | auction_repo.Docs [] => resp = controller.JSON 200 controller.JEmptyArray
      | auction_repo.Docs docs =>
          resp = controller.JSON 200
                   (controller.JAuctions
                      (map (fun m => auction_usecase.ofAuction toProductCondition
                                       toAuctionStatus (fromAuctionEntityMongo m)) docs))
          /\ length docs <> 0%nat
      | _ =>
          controller.StatusCode resp = 500
          /\ exists msg, controller.ResponseBody resp
                         = controller.JErr (rest_err.NewInternalServerError msg)
      end
  end.
Proof.
  cbv zeta. unfold controller.FindAllAuctions, auction_repo.FindAllAuctions.
  destruct statusNumber as [k|]; [|done].
  destruct (find _) as [| |[|m docs]]; cbn; try done;
    try (split; [done|by eexists]).
  by rewrite map_map.
Qed.

(** * Whole batches on one path *)

(** An invariant of every step is an invariant of every schedule. *)
Lemma run_schedule_ind (w : World) (I : BatchState -> Prop) :
  (forall i s, I s -> I (step_task_at w i s)) ->
  forall sched s, I s -> I (run_schedule w sched s).
Proof.
  intros Hstep sched. induction sched as [|i sched IH]; intros s Hs; [done|].
  unfold run_schedule in *. cbn [fold_left]. by apply IH, Hstep.
Qed.

Lemma CreateBidBatch_ind (w : World) (I : BatchState -> Prop) sched n bd bids :
  (forall i s, I s -> I (step_task_at w i s)) ->
  I {| bs_repo := bd; bs_tasks := map TStart bids; bs_trace := []; bs_tick := n |} ->
  I (CreateBidBatch w sched n bd bids).1.
Proof.
  intros Hstep H0. unfold CreateBidBatch. cbn [fst].
  by apply run_schedule_ind, run_schedule_ind.
Qed.

Section HitBatch.

Variable w : World.
Variable bd : BidRepository.

Lemma task_step_hit n t :
  on_hit_path bd t ->
  (task_step w n bd t).1.1 = bd
  /\ on_hit_path bd (task_step w n bd t).1.2
  /\ count_lookups (task_step w n bd t).2 = 0%nat.
Proof.
  destruct t as [b|b st|b [st|] [et|]|b a|b a|b msg|]; cbn [task_step on_hit_path];
    try done.
  - intros [Hs He]. by repeat split.
  - intros [[Hs He] Hst]. by repeat split.
  - intros _. by destruct (_ || _).
  - by intros [_ [? [=]]].
  - by intros [[? [=]] _].
  - by intros [[? [=]] _].
  - intros _. cbn [fst snd]. repeat split. apply count_lookups_insert_bid.
Qed.

Lemma step_task_at_hit i s :
  bs_repo s = bd /\ Forall (on_hit_path bd) (bs_tasks s)
    /\ count_lookups (bs_trace s) = 0%nat ->
  bs_repo (step_task_at w i s) = bd
  /\ Forall (on_hit_path bd) (bs_tasks (step_task_at w i s))
  /\ count_lookups (bs_trace (step_task_at w i s)) = 0%nat.
Proof.
  intros (Hr & Ht & Hc). unfold step_task_at.
  destruct (bs_tasks s !! i) as [t|] eqn:Hi; [|done].
  destruct (is_done t); [done|].
  assert (on_hit_path bd t) as Hti by (by eapply Forall_lookup_1).
  rewrite Hr. destruct (task_step_hit (bs_tick s) t Hti) as (H1 & H2 & H3).
  destruct (task_step w (bs_tick s) bd t) as [[bd' t'] evs].
  cbn [fst snd bs_repo bs_tasks bs_trace] in *.
  split; [done|]. split; [by apply Forall_insert|].
  rewrite count_lookups_app. lia.
Qed.

End HitBatch.

(** X20.  A batch all of whose auctions have both cache entries makes no
    Auction Lookup call and leaves the caches exactly as they were, under
    any schedule and whatever the clock and the Bid Store do. *)
Theorem X20_batch_of_hits_makes_no_lookup (w : World) (sched : list nat) (n : nat)
    (bd : BidRepository) (bids : list bid_entity.Bid) :
  Forall (fun b => is_Some (auctionStatusMap bd !! bid_entity.AuctionId b)
                   /\ is_Some (auctionEndTimeMap bd !! bid_entity.AuctionId b)) bids ->
  count_lookups (bs_trace (CreateBidBatch w sched n bd bids).1) = 0%nat
  /\ bs_repo (CreateBidBatch w sched n bd bids).1 = bd.
Proof.
  intros Hb.
  destruct (CreateBidBatch_ind w
              (fun s => bs_repo s = bd /\ Forall (on_hit_path bd) (bs_tasks s)
                        /\ count_lookups (bs_trace s) = 0%nat)
              sched n bd bids) as (H1 & _ & H3); [| |done].
  - intros i s. apply step_task_at_hit.
  - cbn [bs_repo bs_tasks bs_trace]. split; [done|]. split; [|done].
    apply Forall_map. eapply Forall_impl; [exact Hb|]. by intros b.
Qed.

(** X20 in the scenario: two bids on X once X is cached. *)
Lemma X20_batch_of_hits_makes_no_lookup_witness :
  let bd := {| auctionStatusMap := {[ scenario.auctionX := auction_entity.Active ]};
               auctionEndTimeMap := {[ scenario.auctionX := time.Unix 1700000300 ]};
               auctionInterval := 5 * time.Minute |} in
  count_lookups
    (bs_trace (CreateBidBatch scenario.w0 [1%nat; 0%nat; 1%nat] 0 bd
                 [scenario.bidLate; scenario.bidLate]).1) = 0%nat.
Proof.
  cbv zeta.
  refine (proj1 (X20_batch_of_hits_makes_no_lookup scenario.w0 [1%nat; 0%nat; 1%nat] 0
                   _ [scenario.bidLate; scenario.bidLate] _)).
  repeat constructor; by eexists.
Defined.

Section ClosedBatch.

Variable w : World.
Variable bd : BidRepository.
Variable bids : list bid_entity.Bid.

Hypothesis no_entry : forall b, b ∈ bids ->
  auctionStatusMap bd !! bid_entity.AuctionId b = None.
Hypothesis never_active : forall n b m, b ∈ bids ->
  auctions_FindOne w n (bid_entity.AuctionId b) = Some m ->
  auction.Status m <> auction_entity.Active.

Lemma task_step_closed n t :
  on_closed_path bids t ->
  (task_step w n bd t).1.1 = bd
  /\ on_closed_path bids (task_step w n bd t).1.2
  /\ count_inserts (task_step w n bd t).2 = 0%nat.
Proof using no_entry never_active.
  assert (forall b, b ∈ bids ->
    (let id := bid_entity.AuctionId b in
     match FindAuctionById w n id with
     | (evs, inr _) =>
         (bd, TDone,
          evs ++ [EvLog ("error trying to find auction by id " ++ id)%string])
     | (evs, inl a) =>
         if negb (auction_entity.Status a =? auction_entity.Active)
         then (bd, TDone,
               evs ++ [EvLog ("auction with id " ++ id ++ " is not open")%string])
         else (bd, TFound b a, evs)
     end).1.1 = bd
    /\ on_closed_path bids
         (let id := bid_entity.AuctionId b in
          match FindAuctionById w n id with
          | (evs, inr _) =>
              (bd, TDone,
               evs ++ [EvLog ("error trying to find auction by id " ++ id)%string])
          | (evs, inl a) =>
              if negb (auction_entity.Status a =? auction_entity.Active)
              then (bd, TDone,
                    evs ++ [EvLog ("auction with id " ++ id ++ " is not open")%string])
              else (bd, TFound b a, evs)
          end).1.2
    /\ count_inserts
         (let id := bid_entity.AuctionId b in
          match FindAuctionById w n id with
          | (evs, inr _) =>
              (bd, TDone,
               evs ++ [EvLog ("error trying to find auction by id " ++ id)%string])
          | (evs, inl a) =>
              if negb (auction_entity.Status a =? auction_entity.Active)
              then (bd, TDone,
                    evs ++ [EvLog ("auction with id " ++ id ++ " is not open")%string])
              else (bd, TFound b a, evs)
          end).2 = 0%nat) as Hmiss.
  { intros b Hb. cbv zeta. unfold FindAuctionById.
    destruct (auctions_FindOne w n _) as [m|] eqn:Hm; cbn [fst snd]; [|done].
    cbn [auction_entity.Status].
    destruct (Z.eqb_spec (auction.Status m) auction_entity.Active) as [Ha|Ha];
      [by destruct (never_active n b m Hb Hm)|done]. }
  destruct t as [b|b st|b st et|b a|b a|b msg|]; cbn [on_closed_path]; try done.
  - intros Hb. cbn [task_step]. rewrite no_entry by done. by repeat split.
  - intros [Hb ->]. cbn [task_step]. by apply Hmiss.
Qed.

Lemma step_task_at_closed i s :
  bs_repo s = bd /\ Forall (on_closed_path bids) (bs_tasks s)
    /\ count_inserts (bs_trace s) = 0%nat ->
  bs_repo (step_task_at w i s) = bd
  /\ Forall (on_closed_path bids) (bs_tasks (step_task_at w i s))
  /\ count_inserts (bs_trace (step_task_at w i s)) = 0%nat.
Proof using no_entry never_active.
  intros (Hr & Ht & Hc). unfold step_task_at.
  destruct (bs_tasks s !! i) as [t|] eqn:Hi; [|done].
  destruct (is_done t); [done|].
  assert (on_closed_path bids t) as Hti by (by eapply Forall_lookup_1).
  rewrite Hr. destruct (task_step_closed (bs_tick s) t Hti) as (H1 & H2 & H3).
  destruct (task_step w (bs_tick s) bd t) as [[bd' t'] evs].
  cbn [fst snd bs_repo bs_tasks bs_trace] in *.
  split; [done|]. split; [by apply Forall_insert|].
  rewrite count_inserts_app. lia.
Qed.

End ClosedBatch.

(** X21.  No bid is admitted against an unknown or closed auction on a cache
    miss: when no auction of the batch has a status entry and the Auction
    Lookup, whenever asked, fails or returns a status other than Active, the
    batch makes no Bid Store call and leaves the caches as they were, under
    any schedule. *)
Theorem X21_batch_on_closed_auctions_inserts_nothing (w : World) (sched : list nat)
    (n : nat) (bd : BidRepository) (bids : list bid_entity.Bid) :
  (forall b, b ∈ bids -> auctionStatusMap bd !! bid_entity.AuctionId b = None) ->
  (forall k b m, b ∈ bids ->
     auctions_FindOne w k (bid_entity.AuctionId b) = Some m ->
     auction.Status m <> auction_entity.Active) ->
  count_inserts (bs_trace (CreateBidBatch w sched n bd bids).1) = 0%nat
  /\ bs_repo (CreateBidBatch w sched n bd bids).1 = bd.
Proof.
  intros Hn Hc.
  destruct (CreateBidBatch_ind w
              (fun s => bs_repo s = bd /\ Forall (on_closed_path bids) (bs_tasks s)
                        /\ count_inserts (bs_trace s) = 0%nat)
              sched n bd bids) as (H1 & _ & H3); [| |done].
  - intros i s. by apply step_task_at_closed.
  - cbn [bs_repo bs_tasks bs_trace]. split; [done|]. split; [|done].
    apply Forall_map, Forall_forall. by intros b Hb.
Qed.

(** X21 in the second scenario: a bid on the closed X and a bid on an unknown
    auction, against the empty caches. *)
Lemma X21_batch_on_closed_auctions_inserts_nothing_witness :
  count_inserts
    (bs_trace (CreateBidBatch closed_scenario.wClosed [1%nat; 0%nat] 0 scenario.repo0
                 [scenario.bidLate; closed_scenario.bidUnknown]).1) = 0%nat.
Proof.
  refine (proj1 (X21_batch_on_closed_auctions_inserts_nothing closed_scenario.wClosed
                   [1%nat; 0%nat] 0 scenario.repo0
                   [scenario.bidLate; closed_scenario.bidUnknown] _ _)).
  - intros b _. apply lookup_empty.
  - intros k b m _. cbn [auctions_FindOne closed_scenario.wClosed].
    destruct (String.eqb _ _); [|done]. by intros [= <-].
Defined.
